(** * Galactic star catalogue: the pipeline scripts, embedded and verified

    The repository is a chain of batch scripts over newline-delimited JSON:
    - [scripts/fetch_hipparcos_vizier.py]   (Fetcher and Normalizer),
    - [scripts/enrich_with_simbad_names.py] (Enricher),
    - [scripts/make_10k_after_hip50.py]     (Synthesizer),
    - [scripts/tile_data_py.py]             (Tiler).

    Conventions of the embedding.
    - A Python [float] that holds a number is an exact rational ([Q]); the two
      infinities and NaN are separate values ([pyfloat]).  Rounding of binary64
      arithmetic is not modelled: of numeric code the development states
      ranges, orderings and which fields are set and from what, which hold
      with and without rounding; [Binary64] holds the one line of which a
      statement turns on the rounding.
    - A text inside a record is a [string], with the case mapping and the
      whitespace of ASCII, as the identifiers of the catalogues are.  A line
      of a file is a [PyText.text], the list of its code points, with the
      whitespace of [str.isspace].
    - The system the scripts run on shows in the line separator and in the
      path separator ([Writer.platform]).
    - A Python [dict] read from JSON is an association list in insertion
      order; dictionaries used as lookup tables are [gmap]s.
    - Code that can raise returns a [result]; library calls the scripts rely
      on ([json.loads], [json.dumps], [float] and [int] of a string, [gzip],
      [log10], the random generators, the remote service) are [Section]
      variables. *)

From Stdlib Require Import ZArith QArith Qround Lia Lqa Ascii.
From Stdlib Require PrimFloat.
From stdpp Require Import gmap strings list pretty sorting.

(** ** Exceptions *)

(** The exceptions the scripts can meet, and a run that ends in one. *)
Inductive exn : Type :=
| ValueError
| TypeError
| OverflowError
| AttributeError
| JSONDecodeError
| ServiceError (msg : string).

Inductive result (A : Type) : Type :=
| Ok (a : A)
| Raise (e : exn).
Arguments Ok {A} a.
Arguments Raise {A} e.

Definition rbind {A B : Type} (r : result A) (k : A -> result B) : result B :=
  match r with
  | Ok a => k a
  | Raise e => Raise e
  end.

Notation "'do' x <- r ; k" := (rbind r (fun x => k))
  (at level 10, x name, r at level 100, k at level 200).

Definition is_ok {A : Type} (r : result A) : bool :=
  match r with
  | Ok _ => true
  | Raise _ => false
  end.

(** ** Python numbers *)

Module PyNum.
Local Open Scope Q_scope.

(** A Python float: a number, or one of the three special values. *)
Inductive pyfloat : Type :=
| Fin (q : Q)
| PInf
| NInf
| NaN.

Definition is_finite (f : pyfloat) : bool :=
  match f with
  | Fin _ => true
  | _ => false
  end.

(** [x % m] on numbers: the result has the sign of [m]. *)
Definition py_mod (x m : Q) : Q := x - m * inject_Z (Qfloor (x / m)).

(** [x % m], [x + c] and [x / c] on floats, for a positive number [m] or [c]
    on the right: an infinity has no remainder, NaN stays NaN. *)
Definition f_mod (x : pyfloat) (m : Q) : pyfloat :=
  match x with
  | Fin q => Fin (py_mod q m)
  | _ => NaN
  end.

Definition f_add (x : pyfloat) (c : Q) : pyfloat :=
  match x with
  | Fin q => Fin (q + c)
  | other => other
  end.

Definition f_div (x : pyfloat) (c : Q) : pyfloat :=
  match x with
  | Fin q => Fin (q / c)
  | other => other
  end.

(** [int(math.floor(x))]: NaN and the infinities have no floor. *)
Definition f_floor (x : pyfloat) : result Z :=
  match x with
  | Fin q => Ok (Qfloor q)
  | NaN => Raise ValueError
  | PInf | NInf => Raise OverflowError
  end.

(** [max(a, b)] and [min(a, b)] of Python on numbers. *)
Definition py_max (a b : Q) : Q := if Qlt_le_dec a b then b else a.
Definition py_min (a b : Q) : Q := if Qlt_le_dec b a then b else a.

(** [int(x)] on a number: truncation toward zero. *)
Definition py_trunc (x : Q) : Z := Z.quot (Qnum x) (Zpos (Qden x)).

Lemma py_mod_range x m : 0 < m -> 0 <= py_mod x m /\ py_mod x m < m.
Proof.
  intros Hm. unfold py_mod.
  pose proof (Qfloor_le (x / m)) as Hlo.
  pose proof (Qlt_floor (x / m)) as Hhi.
  assert (Hx : x == m * (x / m)) by (field; lra).
  rewrite inject_Z_plus in Hhi.
  set (q := x / m) in *. set (f := inject_Z (Qfloor q)) in *.
  change (inject_Z 1) with 1 in Hhi.
  assert (H1 : 0 <= m * (q - f)) by (apply Qmult_le_0_compat; lra).
  assert (H2 : 0 < m * (f + 1 - q)) by (apply Qmult_lt_0_compat; lra).
  split; lra.
Qed.

Lemma py_max_lb_l a b : a <= py_max a b.
Proof. unfold py_max. destruct (Qlt_le_dec a b); lra. Qed.

Lemma py_max_lb_r a b : b <= py_max a b.
Proof. unfold py_max. destruct (Qlt_le_dec a b); lra. Qed.

Lemma Qfloor_nonneg x : 0 <= x -> (0 <= Qfloor x)%Z.
Proof. intros H. apply (Qfloor_resp_le 0 x) in H. exact H. Qed.

Lemma Qfloor_below x (n : Z) : x < inject_Z n -> (Qfloor x < n)%Z.
Proof.
  intros H. pose proof (Qfloor_le x) as Hle.
  assert (Hq : inject_Z (Qfloor x) < inject_Z n) by lra.
  now rewrite <- Zlt_Qlt in Hq.
Qed.

Lemma Qfloor_at_most x (n : Z) : x <= inject_Z n -> (Qfloor x <= n)%Z.
Proof.
  intros H. apply Qfloor_resp_le in H. now rewrite Qfloor_Z in H.
Qed.

End PyNum.

(** ** Python strings *)

Module PyStr.

(** The ASCII characters [str.isspace] accepts. The texts of this module
    are the identifiers and field values of the catalogues; the lines of a
    file, which can carry any whitespace, are [PyText.text]s. *)
Definition is_space (c : ascii) : bool :=
  let n := nat_of_ascii c in
  (Nat.leb 9 n && Nat.leb n 13) || (Nat.leb 28 n && Nat.leb n 32).

Fixpoint lstrip (s : string) : string :=
  match s with
  | String c rest => if is_space c then lstrip rest else s
  | EmptyString => EmptyString
  end.

Definition rstrip (s : string) : string := String.rev (lstrip (String.rev s)).

(** [s.strip()] *)
Definition strip (s : string) : string := rstrip (lstrip s).

Definition upper_char (c : ascii) : ascii :=
  let n := nat_of_ascii c in
  if Nat.leb 97 n && Nat.leb n 122 then ascii_of_nat (n - 32) else c.

(** [s.upper()] *)
Fixpoint upper (s : string) : string :=
  match s with
  | String c rest => String (upper_char c) (upper rest)
  | EmptyString => EmptyString
  end.

(** [s.startswith(p)] *)
Fixpoint startswith (p s : string) : bool :=
  match p, s with
  | EmptyString, _ => true
  | String a p', String b s' => Ascii.eqb a b && startswith p' s'
  | String _ _, EmptyString => false
  end.

(** [s.replace(c, "")] for a one-character [c]. *)
Fixpoint remove_char (c : ascii) (s : string) : string :=
  match s with
  | String d rest =>
      if Ascii.eqb d c then remove_char c rest else String d (remove_char c rest)
  | EmptyString => EmptyString
  end.

(** [c in s] for a one-character [c]. *)
Fixpoint contains_char (c : ascii) (s : string) : bool :=
  match s with
  | String d rest => Ascii.eqb d c || contains_char c rest
  | EmptyString => false
  end.

(** [s.split(sep)] for a one-character separator. *)
Fixpoint split_char (sep : ascii) (s : string) : list string :=
  match s with
  | EmptyString => [EmptyString]
  | String c rest =>
      if Ascii.eqb c sep then EmptyString :: split_char sep rest
      else match split_char sep rest with
           | w :: ws => String c w :: ws
           | [] => [String c EmptyString]
           end
  end.

(** [s[n:]] *)
Fixpoint drop_chars (n : nat) (s : string) : string :=
  match n, s with
  | S n', String _ rest => drop_chars n' rest
  | _, _ => s
  end.

(** [sep.join(parts)] *)
Definition join (sep : string) (parts : list string) : string :=
  String.concat sep parts.

Example strip_example : strip "  HIP 12 " = "HIP 12".
Proof. reflexivity. Qed.

Example split_example : split_char "|" "HD 1|HIP 2|" = ["HD 1"; "HIP 2"; ""].
Proof. reflexivity. Qed.

Example upper_example : upper "hip 7z" = "HIP 7Z".
Proof. reflexivity. Qed.

Lemma sapp_cons (c : ascii) (a b : string) : String c a +:+ b = String c (a +:+ b).
Proof. reflexivity. Qed.

Lemma sapp_nil_l (s : string) : "" +:+ s = s.
Proof. reflexivity. Qed.

Lemma sapp_nil_r (s : string) : s +:+ "" = s.
Proof. induction s as [|c s IH]; [reflexivity|]. now rewrite sapp_cons, IH. Qed.

Lemma sapp_assoc (a b c : string) : (a +:+ b) +:+ c = a +:+ (b +:+ c).
Proof. induction a as [|x a IH]; [reflexivity|]. now rewrite !sapp_cons, IH. Qed.

Lemma sapp_length (a b : string) :
  String.length (a +:+ b) = String.length a + String.length b.
Proof. induction a as [|x a IH]; [reflexivity|]. rewrite sapp_cons. cbn. now rewrite IH. Qed.

(** Two strings with a common suffix are equal when what precedes it is. *)
Lemma sapp_inj_r (a b s : string) : a +:+ s = b +:+ s -> a = b.
Proof.
  revert b. induction a as [|x a IH]; intros [|y b] H.
  - reflexivity.
  - apply (f_equal String.length) in H.
    rewrite sapp_nil_l, sapp_cons in H. cbn in H. rewrite sapp_length in H. lia.
  - apply (f_equal String.length) in H.
    rewrite sapp_nil_l, sapp_cons in H. cbn in H. rewrite sapp_length in H. lia.
  - rewrite !sapp_cons in H. injection H as -> H. f_equal. now apply IH.
Qed.

(** Strings that end in different characters differ. *)
Lemma sapp_last_ne (a b : string) (x y : ascii) :
  x <> y -> a +:+ String x "" <> b +:+ String y "".
Proof.
  intros Hxy. revert b. induction a as [|c a IH]; intros [|d b] H.
  - rewrite !sapp_nil_l in H. congruence.
  - rewrite sapp_nil_l, sapp_cons in H. injection H as _ H. destruct b; discriminate H.
  - rewrite sapp_nil_l, sapp_cons in H. injection H as _ H. destruct a; discriminate H.
  - rewrite !sapp_cons in H. injection H as _ H. now apply IH in H.
Qed.

(** *** What stripping leaves *)

Lemma rev_app_append (s t : string) : String.rev_app s t = String.rev s +:+ t.
Proof.
  unfold String.rev. revert t.
  induction s as [|a s IH]; intros t; [reflexivity|].
  cbn [String.rev_app]. rewrite (IH (String a t)), (IH (String a "")).
  now rewrite sapp_assoc.
Qed.

Lemma rev_cons (a : ascii) (s : string) :
  String.rev (String a s) = String.rev s +:+ String a "".
Proof. unfold String.rev at 1. cbn [String.rev_app]. apply rev_app_append. Qed.

Lemma rev_append (a b : string) : String.rev (a +:+ b) = String.rev b +:+ String.rev a.
Proof.
  induction a as [|x a IH].
  - now rewrite sapp_nil_l, sapp_nil_r.
  - now rewrite sapp_cons, !rev_cons, IH, sapp_assoc.
Qed.

Lemma rev_involutive (s : string) : String.rev (String.rev s) = s.
Proof.
  induction s as [|a s IH]; [reflexivity|].
  now rewrite rev_cons, rev_append, IH.
Qed.

Lemma rev_empty (s : string) : String.rev s = "" <-> s = "".
Proof.
  split; [|now intros ->].
  intros H. apply (f_equal String.rev) in H. now rewrite rev_involutive in H.
Qed.

Lemma lstrip_append (u v : string) :
  lstrip (u +:+ v) = if decide (lstrip u = "") then lstrip v else lstrip u +:+ v.
Proof.
  induction u as [|c u IH]; [reflexivity|].
  rewrite sapp_cons. cbn [lstrip]. destruct (is_space c); [exact IH|].
  now rewrite decide_False by discriminate.
Qed.

Lemma rstrip_cons (c : ascii) (s : string) :
  rstrip (String c s)
  = if decide (rstrip s = "")
    then (if is_space c then "" else String c "")
    else String c (rstrip s).
Proof.
  unfold rstrip. rewrite rev_cons, lstrip_append.
  destruct (decide (lstrip (String.rev s) = "")) as [E|E].
  - rewrite E. rewrite decide_True by reflexivity.
    cbn [lstrip]. now destruct (is_space c).
  - rewrite decide_False by (now rewrite rev_empty).
    now rewrite rev_append.
Qed.

Lemma lstrip_idempotent (s : string) : lstrip (lstrip s) = lstrip s.
Proof.
  induction s as [|c s IH]; [reflexivity|]. cbn [lstrip].
  destruct (is_space c) eqn:E; [exact IH|]. cbn [lstrip]. now rewrite E.
Qed.

Lemma rstrip_idempotent (s : string) : rstrip (rstrip s) = rstrip s.
Proof.
  induction s as [|c s IH]; [reflexivity|]. rewrite rstrip_cons.
  destruct (decide (rstrip s = "")) as [E|E].
  - destruct (is_space c) eqn:Hc; [reflexivity|].
    rewrite rstrip_cons. change (rstrip "") with "".
    rewrite decide_True by reflexivity. now rewrite Hc.
  - rewrite rstrip_cons, IH. now rewrite decide_False by exact E.
Qed.

Lemma lstrip_rstrip (s : string) : lstrip (rstrip s) = rstrip (lstrip s).
Proof.
  induction s as [|c s IH]; [reflexivity|]. rewrite rstrip_cons. cbn [lstrip].
  destruct (is_space c) eqn:Hc.
  - destruct (decide (rstrip s = "")) as [E|E].
    + rewrite <- IH, E. reflexivity.
    + cbn [lstrip]. now rewrite Hc.
  - rewrite rstrip_cons.
    destruct (decide (rstrip s = "")); cbn [lstrip]; now rewrite Hc.
Qed.

Lemma strip_fixed (s : string) :
  lstrip (strip s) = strip s /\ rstrip (strip s) = strip s.
Proof.
  unfold strip. split.
  - now rewrite lstrip_rstrip, lstrip_idempotent.
  - apply rstrip_idempotent.
Qed.

Lemma join_cons (sep x : string) (xs : list string) :
  xs <> [] -> join sep (x :: xs) = x +:+ sep +:+ join sep xs.
Proof. destruct xs; [congruence|reflexivity]. Qed.

Lemma join_app (sep : string) (a b : list string) :
  a <> [] -> b <> [] -> join sep (a ++ b) = join sep a +:+ sep +:+ join sep b.
Proof.
  intros Ha Hb. induction a as [|x a IH]; [congruence|].
  destruct a as [|y a].
  - cbn [app]. now rewrite join_cons.
  - change ((x :: y :: a) ++ b) with (x :: ((y :: a) ++ b)).
    rewrite join_cons by discriminate. rewrite IH by discriminate.
    rewrite (join_cons sep x (y :: a)) by discriminate.
    now rewrite !sapp_assoc.
Qed.

End PyStr.

(** ** Lines of text files *)

(** A line read from a file, as the code points of its characters. The
    scripts strip such lines before anything else, and [str.strip] removes
    every character [str.isspace] accepts, of which most lie outside
    ASCII. *)
Module PyText.

Definition text : Type := list N.

(** [c.isspace()]: the characters of category Zs or of bidirectional class
    WS, B or S. These are U+0009..U+000D, U+001C..U+0020, U+0085, U+00A0,
    U+1680, U+2000..U+200A, U+2028, U+2029, U+202F, U+205F and U+3000. *)
Definition isspace (c : N) : bool :=
  ((9 <=? c) && (c <=? 13) || (28 <=? c) && (c <=? 32)
   || (c =? 133) || (c =? 160) || (c =? 5760)
   || (8192 <=? c) && (c <=? 8202)
   || (c =? 8232) || (c =? 8233) || (c =? 8239) || (c =? 8287)
   || (c =? 12288))%N.

(** The same characters, one by one, as the Unicode character database
    lists them. *)
Definition whitespace : list N :=
  [9; 10; 11; 12; 13; 28; 29; 30; 31; 32; 133; 160; 5760;
   8192; 8193; 8194; 8195; 8196; 8197; 8198; 8199; 8200; 8201; 8202;
   8232; 8233; 8239; 8287; 12288]%N.

Fixpoint lstrip (s : text) : text :=
  match s with
  | c :: rest => if isspace c then lstrip rest else s
  | [] => []
  end.

Definition rstrip (s : text) : text := reverse (lstrip (reverse s)).

(** [s.strip()] *)
Definition strip (s : text) : text := rstrip (lstrip s).

(** The text of an ASCII string. *)
Fixpoint of_string (s : string) : text :=
  match s with
  | String c rest => N_of_ascii c :: of_string rest
  | EmptyString => []
  end.

Example strip_no_break_space :
  strip ([160; 8232] ++ of_string " HIP 12" ++ [12288; 10])%N = of_string "HIP 12".
Proof. reflexivity. Qed.

Lemma isspace_whitespace (c : N) : isspace c = true <-> c ∈ whitespace.
Proof.
  split.
  - intros H. apply list_elem_of_In.
    assert (E : (9 = c \/ 10 = c \/ 11 = c \/ 12 = c \/ 13 = c \/ 28 = c \/ 29 = c \/
                 30 = c \/ 31 = c \/ 32 = c \/ 133 = c \/ 160 = c \/ 5760 = c \/
                 8192 = c \/ 8193 = c \/ 8194 = c \/ 8195 = c \/ 8196 = c \/
                 8197 = c \/ 8198 = c \/ 8199 = c \/ 8200 = c \/ 8201 = c \/
                 8202 = c \/ 8232 = c \/ 8233 = c \/ 8239 = c \/ 8287 = c \/
                 12288 = c)%N).
    { unfold isspace in H.
      repeat match goal with
             | H : _ || _ = true |- _ => apply orb_true_iff in H as [H|H]
             | H : _ && _ = true |- _ => apply andb_true_iff in H as [? ?]
             | H : (_ <=? _)%N = true |- _ => apply N.leb_le in H
             | H : (_ =? _)%N = true |- _ => apply N.eqb_eq in H
             end; lia. }
    unfold whitespace. cbn [In]. tauto.
  - intros H. apply list_elem_of_In in H. unfold whitespace in H. cbn [In] in H.
    repeat (destruct H as [<-|H]; [reflexivity|]). contradiction.
Qed.

Lemma text_reverse_nil (s : text) : reverse s = [] <-> s = [].
Proof.
  split; [|now intros ->].
  intros H. apply (f_equal reverse) in H. now rewrite reverse_involutive in H.
Qed.

Lemma text_lstrip_app (u v : text) :
  lstrip (u ++ v) = if decide (lstrip u = []) then lstrip v else lstrip u ++ v.
Proof.
  induction u as [|c u IH]; [reflexivity|].
  cbn [app lstrip]. destruct (isspace c); [exact IH|].
  now rewrite decide_False by discriminate.
Qed.

Lemma text_rstrip_cons (c : N) (s : text) :
  rstrip (c :: s)
  = if decide (rstrip s = [])
    then (if isspace c then [] else [c])
    else c :: rstrip s.
Proof.
  unfold rstrip. rewrite reverse_cons, text_lstrip_app.
  destruct (decide (lstrip (reverse s) = [])) as [E|E].
  - rewrite E. rewrite decide_True by reflexivity.
    cbn [lstrip]. now destruct (isspace c).
  - rewrite decide_False by (now rewrite text_reverse_nil).
    now rewrite reverse_app.
Qed.

Lemma text_lstrip_idempotent (s : text) : lstrip (lstrip s) = lstrip s.
Proof.
  induction s as [|c s IH]; [reflexivity|]. cbn [lstrip].
  destruct (isspace c) eqn:E; [exact IH|]. cbn [lstrip]. now rewrite E.
Qed.

Lemma text_rstrip_idempotent (s : text) : rstrip (rstrip s) = rstrip s.
Proof.
  induction s as [|c s IH]; [reflexivity|]. rewrite text_rstrip_cons.
  destruct (decide (rstrip s = [])) as [E|E].
  - destruct (isspace c) eqn:Hc; [reflexivity|].
    rewrite text_rstrip_cons. change (rstrip []) with (@nil N).
    rewrite decide_True by reflexivity. now rewrite Hc.
  - rewrite text_rstrip_cons, IH. now rewrite decide_False by exact E.
Qed.

Lemma text_lstrip_rstrip (s : text) : lstrip (rstrip s) = rstrip (lstrip s).
Proof.
  induction s as [|c s IH]; [reflexivity|]. rewrite text_rstrip_cons. cbn [lstrip].
  destruct (isspace c) eqn:Hc.
  - destruct (decide (rstrip s = [])) as [E|E].
    + rewrite <- IH, E. reflexivity.
    + cbn [lstrip]. now rewrite Hc.
  - rewrite text_rstrip_cons.
    destruct (decide (rstrip s = [])); cbn [lstrip]; now rewrite Hc.
Qed.

Lemma text_strip_idempotent (s : text) : strip (strip s) = strip s.
Proof.
  unfold strip.
  now rewrite text_lstrip_rstrip, text_rstrip_idempotent, text_lstrip_idempotent.
Qed.

Lemma text_strip_fixed (s : text) :
  lstrip (strip s) = strip s /\ rstrip (strip s) = strip s.
Proof.
  unfold strip. split.
  - now rewrite text_lstrip_rstrip, text_lstrip_idempotent.
  - apply text_rstrip_idempotent.
Qed.

Lemma text_lstrip_split (s : text) :
  exists l, s = l ++ lstrip s /\ Forall (fun c => isspace c = true) l.
Proof.
  induction s as [|c s (l & Hs & Hl)]; [now exists []|]. cbn [lstrip].
  destruct (isspace c) eqn:Hc.
  - exists (c :: l). cbn [app]. rewrite <- Hs. split; [reflexivity|now constructor].
  - now exists [].
Qed.

Lemma text_rstrip_split (s : text) :
  exists r, s = rstrip s ++ r /\ Forall (fun c => isspace c = true) r.
Proof.
  induction s as [|c s (r & Hs & Hr)]; [now exists []|]. rewrite text_rstrip_cons.
  destruct (decide (rstrip s = [])) as [E|E].
  - rewrite E in Hs. cbn [app] in Hs. subst r.
    destruct (isspace c) eqn:Hc.
    + exists (c :: s). split; [reflexivity|now constructor].
    + exists s. now split.
  - exists r. cbn [app]. rewrite <- Hs. now split.
Qed.

Lemma text_strip_split (s : text) :
  exists l r,
    s = l ++ strip s ++ r /\
    Forall (fun c => isspace c = true) l /\ Forall (fun c => isspace c = true) r.
Proof.
  destruct (text_lstrip_split s) as (l & Hs & Hl).
  destruct (text_rstrip_split (lstrip s)) as (r & Hs' & Hr).
  exists l, r. unfold strip. now rewrite <- Hs', <- Hs.
Qed.

(** The ends of a stripped text are no whitespace. *)
Lemma text_lstrip_head (s : text) (c : N) (rest : text) :
  lstrip s = c :: rest -> isspace c = false.
Proof.
  induction s as [|d s IH]; [discriminate|]. cbn [lstrip].
  destruct (isspace d) eqn:Hd; [exact IH|]. now intros [= <- _].
Qed.

Lemma text_rstrip_last (s front : text) (c : N) :
  rstrip s = front ++ [c] -> isspace c = false.
Proof.
  unfold rstrip. intros H. apply (f_equal reverse) in H.
  rewrite reverse_involutive, reverse_app in H. cbn in H.
  now apply text_lstrip_head in H.
Qed.

End PyText.
(** ** JSON values *)

Module Json.
Import PyNum.

(** What [json.loads] returns: [None], [bool], [int], [float], [str],
    [list], and [dict] as its items in insertion order. *)
#[local] Set Warnings "-register-all".
Inductive json : Type :=
| JNull
| JBool (b : bool)
| JInt (z : Z)
| JFloat (f : pyfloat)
| JStr (s : string)
| JArr (items : list json)
| JObj (fields : list (string * json)).

Definition is_none (v : json) : bool :=
  match v with
  | JNull => true
  | _ => false
  end.

(** The first item of a dictionary under a key. *)
Fixpoint assoc (k : string) (fields : list (string * json)) : option json :=
  match fields with
  | [] => None
  | (k', v) :: rest => if String.eqb k' k then Some v else assoc k rest
  end.

(** [d.get(k)]: [None] when the key is absent. *)
Definition dict_get (k : string) (fields : list (string * json)) : json :=
  default JNull (assoc k fields).

(** [d[k] = v]: in place when the key is there, at the end otherwise. *)
Fixpoint dict_set (k : string) (v : json) (fields : list (string * json))
  : list (string * json) :=
  match fields with
  | [] => [(k, v)]
  | (k', v') :: rest =>
      if String.eqb k' k then (k', v) :: rest else (k', v') :: dict_set k v rest
  end.



Lemma assoc_dict_set_ne k k' v fields :
  k' <> k -> assoc k' (dict_set k v fields) = assoc k' fields.
Proof.
  intros Hne. induction fields as [|[k0 v0] rest IH]; cbn.
  - destruct (String.eqb k k') eqn:E; [|reflexivity].
    apply String.eqb_eq in E. congruence.
  - destruct (String.eqb k0 k) eqn:E; cbn.
    + apply String.eqb_eq in E. subst k0.
      destruct (String.eqb k k') eqn:E'; [|reflexivity].
      apply String.eqb_eq in E'. congruence.
    + now rewrite IH.
Qed.




End Json.

(** ** The Tiler's grid ([scripts/tile_data_py.py], lines 6 and 30-32) *)

Module Grid.
Import PyNum PyStr.
Local Open Scope Q_scope.

Definition TILE_DEG : Q := 4.

(** [((ra % 360) + 360) % 360] *)
Definition wrap_ra (ra : pyfloat) : pyfloat :=
  f_mod (f_add (f_mod ra 360) 360) 360.

(** [tx = int(math.floor(((ra % 360) + 360) % 360 / TILE_DEG))] *)
Definition tile_tx (ra : pyfloat) : result Z :=
  f_floor (f_div (wrap_ra ra) TILE_DEG).

(** [ty = int(math.floor((dec + 90.0) / TILE_DEG))] *)
Definition tile_ty (dec : pyfloat) : result Z :=
  f_floor (f_div (f_add dec 90) TILE_DEG).

(** [key = f"{tx}_{ty}"] *)
Definition tile_key (tx ty : Z) : string := pretty tx +:+ "_" +:+ pretty ty.

(** The same two indices on numbers, where nothing can raise. *)
Definition wrap_q (ra : Q) : Q := py_mod (py_mod ra 360 + 360) 360.
Definition tx_q (ra : Q) : Z := Qfloor (wrap_q ra / TILE_DEG).
Definition ty_q (dec : Q) : Z := Qfloor ((dec + 90) / TILE_DEG).

Lemma wrap_ra_fin (ra : Q) : wrap_ra (Fin ra) = Fin (wrap_q ra).
Proof. reflexivity. Qed.

Lemma tile_tx_fin (ra : Q) : tile_tx (Fin ra) = Ok (tx_q ra).
Proof. reflexivity. Qed.

Lemma tile_ty_fin (dec : Q) : tile_ty (Fin dec) = Ok (ty_q dec).
Proof. reflexivity. Qed.

Lemma tile_tx_not_finite ra : is_finite ra = false -> tile_tx ra = Raise ValueError.
Proof. destruct ra; intros H; try discriminate H; reflexivity. Qed.

Lemma tile_ty_not_finite dec : is_finite dec = false -> is_ok (tile_ty dec) = false.
Proof. destruct dec; intros H; try discriminate H; reflexivity. Qed.

(** The decimal form of an integer holds no underscore, so a key names one
    pair of indices. *)
Lemma pretty_N_go_no_char (c : ascii) x s :
  (forall d, (d < 10)%N -> pretty_N_char d <> c) ->
  contains_char c (pretty_N_go x s) = contains_char c s.
Proof.
  intros Hc. revert s. induction (N.lt_wf_0 x) as [x _ IH]. intros s.
  destruct (decide (x = 0)%N) as [->|Hx].
  - now rewrite pretty_N_go_0.
  - rewrite pretty_N_go_step by lia.
    rewrite IH by (apply N.div_lt; lia).
    cbn. destruct (Ascii.eqb_spec (pretty_N_char (x `mod` 10)) c) as [E|E]; [|reflexivity].
    exfalso. apply (Hc (x `mod` 10)%N); [|exact E]. apply N.mod_lt. lia.
Qed.

Lemma pretty_N_char_not_underscore d : pretty_N_char d <> "_"%char.
Proof. unfold pretty_N_char. repeat case_match; discriminate. Qed.

Lemma pretty_N_no_underscore (x : N) : contains_char "_" (pretty x) = false.
Proof.
  unfold pretty, pretty_N. case_decide; [reflexivity|].
  rewrite pretty_N_go_no_char; [reflexivity|].
  intros d _. apply pretty_N_char_not_underscore.
Qed.

Lemma pretty_Z_no_underscore (z : Z) : contains_char "_" (pretty z) = false.
Proof.
  destruct z as [|p|p]; [reflexivity| |].
  - apply (pretty_N_no_underscore (Npos p)).
  - change (pretty (Z.neg p)) with ("-" +:+ pretty (Npos p)).
    rewrite sapp_cons, sapp_nil_l. cbn. apply (pretty_N_no_underscore (Npos p)).
Qed.

Lemma split_at_char (c : ascii) (a a' b b' : string) :
  contains_char c a = false -> contains_char c a' = false ->
  a +:+ String c b = a' +:+ String c b' -> a = a' /\ b = b'.
Proof.
  revert a'. induction a as [|x a IH]; intros [|y a'] Ha Ha' H.
  - rewrite !sapp_nil_l in H. injection H as ->. done.
  - rewrite sapp_nil_l, sapp_cons in H. injection H as <- _.
    cbn in Ha'. rewrite Ascii.eqb_refl in Ha'. discriminate.
  - rewrite sapp_nil_l, sapp_cons in H. injection H as -> _.
    cbn in Ha. rewrite Ascii.eqb_refl in Ha. discriminate.
  - rewrite !sapp_cons in H. injection H as -> H.
    cbn in Ha, Ha'.
    apply orb_false_iff in Ha as [_ Ha]. apply orb_false_iff in Ha' as [_ Ha'].
    destruct (IH a' Ha Ha' H) as [-> ->]. done.
Qed.

Lemma tile_key_inj tx ty tx' ty' :
  tile_key tx ty = tile_key tx' ty' -> tx = tx' /\ ty = ty'.
Proof.
  unfold tile_key. intros H.
  apply split_at_char in H as [H1 H2]; try apply pretty_Z_no_underscore.
  split; [apply (inj pretty _ _ H1)|apply (inj pretty _ _ H2)].
Qed.

Example tile_key_example : tile_key 87 0 = "87_0" /\ tile_key 3 (-2) = "3_-2".
Proof. split; reflexivity. Qed.

Lemma wrap_q_range ra : 0 <= wrap_q ra /\ wrap_q ra < 360.
Proof. unfold wrap_q. apply py_mod_range. lra. Qed.

Example wrap_ra_minus_10 :
  wrap_q (-10) == 350 /\ tile_tx (Fin (-10)) = Ok 87%Z /\ tile_ty (Fin (-90)) = Ok 0%Z.
Proof. repeat split; reflexivity. Qed.

Example wrap_ra_361 : wrap_q 361 == 1 /\ tile_tx (Fin 361) = Ok 0%Z.
Proof. split; reflexivity. Qed.

(** C1. For every right ascension, negative ones and those of 360 or more
    included, the wrapped value [((ra % 360) + 360) % 360] is a number of
    [0, 360) and the column index [tx] is an integer of [0, 360 / TILE_DEG),
    that is of [0, 90) for cells of 4 degrees. *)
Theorem tile_tx_in_range (ra : Q) :
  exists (w : Q) (tx : Z),
    wrap_ra (Fin ra) = Fin w /\ tile_tx (Fin ra) = Ok tx /\
    (0 <= w /\ w < 360) /\
    (0 <= tx)%Z /\ inject_Z tx < 360 / TILE_DEG /\ (tx < 90)%Z.
Proof.
  exists (wrap_q ra), (tx_q ra).
  pose proof (wrap_q_range ra) as [Hlo Hhi].
  assert (Hb : (tx_q ra < 90)%Z).
  { apply Qfloor_below. unfold TILE_DEG.
    change (inject_Z 90) with 90.
    apply Qlt_shift_div_r; lra. }
  split; [reflexivity|]. split; [reflexivity|].
  split; [split; assumption|].
  split.
  { apply Qfloor_nonneg. unfold TILE_DEG. apply Qle_shift_div_l; lra. }
  split; [|exact Hb].
  assert (Hq : 360 / TILE_DEG == inject_Z 90) by reflexivity.
  rewrite Hq. now rewrite <- Zlt_Qlt.
Qed.

(** The row index at the north pole is 45: the half-open bound of C2 fails
    at a declination of exactly 90. *)
Lemma tile_ty_north_pole_out_of_range :
  (-90 <= 90 /\ 90 <= 90) /\
  tile_ty (Fin 90) = Ok 45%Z /\
  ~ (inject_Z 45 < 180 / TILE_DEG).
Proof.
  split; [split; vm_compute; discriminate|].
  split; [reflexivity|].
  vm_compute. discriminate.
Qed.

(** C2, amended. For every declination in [-90, 90] the row index [ty] is a
    non-negative integer of the closed range [0, 180 / TILE_DEG], that is of
    [0, 45] for cells of 4 degrees; 45 is the row of a declination of 90. *)
Theorem tile_ty_in_closed_range (dec : Q) :
  -90 <= dec -> dec <= 90 ->
  exists ty : Z,
    tile_ty (Fin dec) = Ok ty /\
    (0 <= ty)%Z /\ inject_Z ty <= 180 / TILE_DEG /\ (ty <= 45)%Z /\
    (dec == 90 -> ty = 45%Z).
Proof.
  intros Hlo Hhi. exists (ty_q dec). split; [reflexivity|].
  unfold ty_q, TILE_DEG.
  assert (Hle : (Qfloor ((dec + 90) / 4) <= 45)%Z).
  { apply Qfloor_at_most. change (inject_Z 45) with 45.
    apply Qle_shift_div_r; lra. }
  split.
  { apply Qfloor_nonneg. apply Qle_shift_div_l; lra. }
  split.
  { assert (Hq : 180 / 4 == inject_Z 45) by reflexivity.
    rewrite Hq. now rewrite <- Zle_Qle. }
  split; [exact Hle|].
  intros Heq. now rewrite Heq.
Qed.

Lemma tile_ty_in_closed_range_witness :
  exists ty : Z,
    tile_ty (Fin 90) = Ok ty /\
    (0 <= ty)%Z /\ inject_Z ty <= 180 / TILE_DEG /\ (ty <= 45)%Z /\
    (90 == 90 -> ty = 45%Z).
Proof. apply (tile_ty_in_closed_range 90); vm_compute; discriminate. Defined.

(** Below the pole the row index stays below 45. This is a fact of exact
    arithmetic: in binary64 the sum [dec + 90] of a declination just below
    90 can round to 180. *)
Lemma tile_ty_below_pole (dec : Q) : -90 <= dec -> dec < 90 -> (0 <= ty_q dec < 45)%Z.
Proof.
  intros Hlo Hhi. unfold ty_q, TILE_DEG. split.
  - apply Qfloor_nonneg. apply Qle_shift_div_l; lra.
  - apply Qfloor_below. change (inject_Z 45) with 45. apply Qlt_shift_div_r; lra.
Qed.

(** *** Keys and index ranges *)

(** X3. A key names one cell: two pairs of indices with the same key
    [f"{tx}_{ty}"] are the same pair, so no two cells share a tile file. *)
Theorem tile_key_names_one_cell (tx ty tx' ty' : Z) :
  tile_key tx ty = tile_key tx' ty' <-> tx = tx' /\ ty = ty'.
Proof.
  split; [apply tile_key_inj|]. now intros [-> ->].
Qed.

Lemma tx_q_bounds (ra : Q) : (0 <= tx_q ra < 90)%Z.
Proof.
  pose proof (wrap_q_range ra) as [Hlo Hhi]. unfold tx_q, TILE_DEG. split.
  - apply Qfloor_nonneg. apply Qle_shift_div_l; lra.
  - apply Qfloor_below. change (inject_Z 90) with 90. apply Qlt_shift_div_r; lra.
Qed.

Lemma ty_q_bounds (dec : Q) : -90 <= dec -> dec <= 90 -> (0 <= ty_q dec <= 45)%Z.
Proof.
  intros Hlo Hhi. unfold ty_q, TILE_DEG. split.
  - apply Qfloor_nonneg. apply Qle_shift_div_l; lra.
  - apply Qfloor_at_most. change (inject_Z 45) with 45. apply Qle_shift_div_r; lra.
Qed.

End Grid.

(** ** The Tiler ([scripts/tile_data_py.py]) *)

Module Tiler.
Import PyNum PyStr Json Grid.

Definition OUTDIR : string := "data/tiles".

(** An [int] converts to a float when it rounds to a binary64 number;
    beyond that [float] raises [OverflowError]. *)
Definition int_fits_float (z : Z) : bool :=
  (Z.abs z <? 2 ^ 1024 - 2 ^ 970)%Z.

(** Line 12: [lines = [ln.strip() for ln in fh if ln.strip()]], on the lines
    of the file as the iteration over [fh] yields them. *)
Definition read_lines (raw : list PyText.text) : list PyText.text :=
  PyText.strip <$> filter (fun ln => PyText.strip ln <> []) raw.

Section Tiling.

(** The type of a line: the loop hands a line to [json.loads] and does
    nothing else with it. The lines of a file are [PyText.text]s. *)
Context {line : Type}.

(** [json.loads(ln)], with [None] for a line it rejects, and [float(s)] of a
    string, with [None] for a string it rejects. *)
Variable json_loads : line -> option json.
Variable float_of_str : string -> option pyfloat.

(** [float(v)] of a JSON value; [None] when it raises ([TypeError],
    [ValueError] or [OverflowError], all caught at lines 26-29). *)
Definition py_float (v : json) : option pyfloat :=
  match v with
  | JBool b => Some (Fin (if b then 1%Q else 0%Q))
  | JInt z => if int_fits_float z then Some (Fin (inject_Z z)) else None
  | JFloat f => Some f
  | JStr s => float_of_str s
  | JNull | JArr _ | JObj _ => None
  end.

(** The body of the loop of lines 17-33 up to the key: the tile key and the
    record a line contributes, [None] for a line the loop passes over. *)
Definition place (ln : line) : result (option (string * json)) :=
  match json_loads ln with
  | None => Ok None
  | Some (JObj fields as obj) =>
      let ra := dict_get "ra" fields in
      let dec := dict_get "dec" fields in
      if is_none ra || is_none dec then Ok None
      else
        match py_float ra with
        | None => Ok None
        | Some ra_f =>
            match py_float dec with
            | None => Ok None
            | Some dec_f =>
                do tx <- tile_tx ra_f;
                do ty <- tile_ty dec_f;
                Ok (Some (tile_key tx ty, obj))
            end
        end
  | Some _ => Raise AttributeError
  end.

(** Line 33: [tiles[key].append(obj)] on a [defaultdict(list)]. *)
Definition tiles_append (key : string) (obj : json)
    (tiles : gmap string (list json)) : gmap string (list json) :=
  <[key := default [] (tiles !! key) ++ [obj]]> tiles.

Definition tile_line (tiles : gmap string (list json)) (ln : line)
  : result (gmap string (list json)) :=
  do p <- place ln;
  match p with
  | None => Ok tiles
  | Some (key, obj) => Ok (tiles_append key obj tiles)
  end.

Fixpoint tile_lines (tiles : gmap string (list json)) (lines : list line)
  : result (gmap string (list json)) :=
  match lines with
  | [] => Ok tiles
  | ln :: rest => do tiles' <- tile_line tiles ln; tile_lines tiles' rest
  end.

(** Lines 16-33. *)
Definition build_tiles (lines : list line) : result (gmap string (list json)) :=
  tile_lines ∅ lines.

(** *** Notions the properties are stated with *)

(** The records of a tile, none for a key without tile. *)
Definition tile_content (tiles : gmap string (list json)) (key : string) : list json :=
  default [] (tiles !! key).

(** The valid records of the input, each with its key, in input order. *)
Definition placed (lines : list line) : list (string * json) :=
  omap (fun ln => match place ln with Ok p => p | Raise _ => None end) lines.

Definition valid_records (lines : list line) : list json := (placed lines).*2.

(** [float(v)] returns. *)
Definition converts (v : json) : bool :=
  match py_float v with
  | Some _ => true
  | None => false
  end.

(** A line the loop passes over: rejected by [json.loads], or an object
    without [ra] or [dec], or with one that [float] rejects. *)
Definition unusable (ln : line) : bool :=
  match json_loads ln with
  | None => true
  | Some (JObj fields) =>
      let ra := dict_get "ra" fields in
      let dec := dict_get "dec" fields in
      is_none ra || is_none dec
      || negb (converts ra) || negb (converts dec)
  | Some _ => false
  end.

(** A line that holds an object whose two coordinates convert to numbers. *)
Definition usable (ln : line) : bool :=
  match json_loads ln with
  | Some (JObj fields) =>
      match py_float (dict_get "ra" fields), py_float (dict_get "dec" fields) with
      | Some (Fin _), Some (Fin _) => true
      | _, _ => false
      end
  | _ => false
  end.

Definition step (tiles : gmap string (list json)) (p : option (string * json))
  : gmap string (list json) :=
  match p with
  | None => tiles
  | Some (key, obj) => tiles_append key obj tiles
  end.

(** The records of the valid lines that fall under a key, in input order. *)
Definition records_of_key (key : string) (lines : list line) : list json :=
  (filter (fun p => p.1 = key) (placed lines)).*2.

(** No tile is empty. *)
Definition no_empty_tile (tiles : gmap string (list json)) : Prop :=
  forall key arr, tiles !! key = Some arr -> arr <> [].

(** All records of all tiles, tile after tile. *)
Definition all_records (tiles : gmap string (list json)) : list json :=
  concat (map_to_list tiles).*2.

(** A line of the input the contract speaks of: one that [json.loads]
    rejects, or an object none of whose coordinates converts to NaN or to
    an infinity. *)
Definition number_or_unusable (v : json) : bool :=
  match py_float v with
  | Some f => is_finite f
  | None => true
  end.

Definition well_formed (ln : line) : bool :=
  match json_loads ln with
  | None => true
  | Some (JObj fields) =>
      number_or_unusable (dict_get "ra" fields)
      && number_or_unusable (dict_get "dec" fields)
  | Some _ => false
  end.

(** *** The loop, line by line *)
Lemma omap_fmap_compose {A B C : Type} (f : B -> option C) (g : A -> B) (l : list A) :
  omap f (g <$> l) = omap (fun x => f (g x)) l.
Proof.
  induction l as [|x l IH]; [reflexivity|]. cbn. destruct (f (g x)); now rewrite IH.
Qed.

(** The entries of an association list under one key are those at an
    increasing list of positions. *)
Lemma filter_by_key_positions {V : Type} (l : list (string * V)) (key : string) :
  exists idx : list nat,
    StronglySorted lt idx /\
    (forall i, i ∈ idx <-> l.*1 !! i = Some key) /\
    (filter (fun p => p.1 = key) l).*2 = omap (fun i => l.*2 !! i) idx.
Proof.
  induction l as [|[k v] l (idx & Hsorted & Hmem & Hcontent)].
  - exists []. split; [constructor|]. split; [|reflexivity].
    intros i. rewrite elem_of_nil. cbn. split; [tauto|discriminate].
  - assert (Hshift : StronglySorted lt (S <$> idx)).
    { apply (StronglySorted_fmap S lt lt); [lia|exact Hsorted]. }
    assert (Hmem' : forall i, i ∈ S <$> idx <-> exists j, i = S j /\ l.*1 !! j = Some key).
    { intros i. rewrite list_elem_of_fmap. setoid_rewrite Hmem. naive_solver. }
    assert (Homap : omap (fun i => ((k, v) :: l).*2 !! i) (S <$> idx)
                    = omap (fun i => l.*2 !! i) idx).
    { now rewrite omap_fmap_compose. }
    destruct (decide (k = key)) as [->|Hne].
    + exists (0 :: (S <$> idx)). split; [|split].
      * constructor; [exact Hshift|]. apply Forall_fmap, Forall_true. cbn. lia.
      * intros [|i]; rewrite elem_of_cons, Hmem'; cbn.
        -- split; [reflexivity|]. intros _. now left.
        -- split; [intros [?|(j & [= <-] & ?)]; [lia|assumption]|].
           intros H. right. now exists i.
      * rewrite filter_cons_True by reflexivity.
        transitivity (v :: omap (fun i => ((key, v) :: l).*2 !! i) (S <$> idx));
          [|reflexivity].
        rewrite Homap, <- Hcontent. reflexivity.
    + exists (S <$> idx). split; [exact Hshift|]. split.
      * intros [|i]; rewrite Hmem'; cbn.
        -- split; [intros (j & ? & _); lia|]. intros [= ?]. congruence.
        -- split; [intros (j & [= <-] & ?); assumption|]. intros H. now exists i.
      * rewrite filter_cons_False by exact Hne. now rewrite Homap.
Qed.


Lemma tile_line_step tiles ln :
  tile_line tiles ln = do p <- place ln; Ok (step tiles p).
Proof. unfold tile_line. destruct (place ln) as [[[k o]|]|e]; reflexivity. Qed.

Lemma tile_lines_cons_ok tiles ln rest tiles' :
  tile_lines tiles (ln :: rest) = Ok tiles' ->
  exists p, place ln = Ok p /\ tile_lines (step tiles p) rest = Ok tiles'.
Proof.
  cbn. rewrite tile_line_step. destruct (place ln) as [p|e]; cbn; [|discriminate].
  intros H. now exists p.
Qed.

Lemma placed_cons_ok ln rest p :
  place ln = Ok p -> placed (ln :: rest) = from_option (fun x => [x]) [] p ++ placed rest.
Proof. intros H. unfold placed. cbn. rewrite H. destruct p; reflexivity. Qed.

Lemma tile_content_append_eq tiles key obj :
  tile_content (tiles_append key obj tiles) key = tile_content tiles key ++ [obj].
Proof. unfold tile_content, tiles_append. now rewrite lookup_insert_eq. Qed.

Lemma tile_content_append_ne tiles key key' obj :
  key <> key' ->
  tile_content (tiles_append key obj tiles) key' = tile_content tiles key'.
Proof. intros Hne. unfold tile_content, tiles_append. now rewrite lookup_insert_ne. Qed.

Lemma tile_lines_content lines : forall tiles tiles' key,
  tile_lines tiles lines = Ok tiles' ->
  tile_content tiles' key = tile_content tiles key ++ records_of_key key lines.
Proof.
  induction lines as [|ln rest IH]; intros tiles tiles' key H.
  - cbn in H. injection H as <-. unfold records_of_key. cbn. now rewrite app_nil_r.
  - apply tile_lines_cons_ok in H as (p & Hp & H).
    rewrite (IH _ _ key H). unfold records_of_key.
    rewrite (placed_cons_ok _ _ _ Hp), filter_app, fmap_app, app_assoc.
    f_equal. destruct p as [[k o]|]; cbn [from_option step].
    + rewrite filter_cons, filter_nil. cbn [fst]. case_decide as Hk.
      * subst k. apply tile_content_append_eq.
      * cbn. rewrite app_nil_r. now apply tile_content_append_ne.
    + rewrite filter_nil. cbn. now rewrite app_nil_r.
Qed.

Lemma tile_lines_dom lines : forall tiles tiles',
  tile_lines tiles lines = Ok tiles' ->
  dom tiles' = dom tiles ∪ list_to_set (placed lines).*1.
Proof.
  induction lines as [|ln rest IH]; intros tiles tiles' H.
  - cbn in H. injection H as <-. cbn. set_solver.
  - apply tile_lines_cons_ok in H as (p & Hp & H).
    rewrite (IH _ _ H), (placed_cons_ok _ _ _ Hp).
    destruct p as [[k o]|]; cbn.
    + unfold tiles_append. rewrite dom_insert_L. set_solver.
    + set_solver.
Qed.

Lemma tile_lines_no_empty_tile lines : forall tiles tiles',
  no_empty_tile tiles -> tile_lines tiles lines = Ok tiles' -> no_empty_tile tiles'.
Proof.
  induction lines as [|ln rest IH]; intros tiles tiles' Hinv H.
  - cbn in H. now injection H as <-.
  - apply tile_lines_cons_ok in H as (p & Hp & H).
    apply (IH _ _) in H; [exact H|].
    destruct p as [[k o]|]; cbn; [|exact Hinv].
    intros key arr. unfold tiles_append. rewrite lookup_insert.
    case_decide.
    + intros [= <-]. now destruct (default [] (tiles !! k)).
    + apply Hinv.
Qed.

Lemma all_records_append tiles key obj :
  all_records (tiles_append key obj tiles) ≡ₚ all_records tiles ++ [obj].
Proof.
  unfold all_records, tiles_append.
  destruct (tiles !! key) as [arr|] eqn:Hk; cbn.
  - rewrite <- (insert_delete_eq tiles key (arr ++ [obj])).
    rewrite map_to_list_insert by apply lookup_delete_eq.
    rewrite <- (insert_delete_id tiles key arr Hk) at 2.
    rewrite map_to_list_insert by apply lookup_delete_eq.
    cbn. rewrite <- !app_assoc. apply Permutation_app_head, Permutation_app_comm.
  - rewrite map_to_list_insert by exact Hk. cbn. apply Permutation_cons_append.
Qed.

Lemma tile_lines_all_records lines : forall tiles tiles',
  tile_lines tiles lines = Ok tiles' ->
  all_records tiles' ≡ₚ all_records tiles ++ valid_records lines.
Proof.
  induction lines as [|ln rest IH]; intros tiles tiles' H.
  - cbn in H. injection H as <-. unfold valid_records. cbn. now rewrite app_nil_r.
  - apply tile_lines_cons_ok in H as (p & Hp & H).
    rewrite (IH _ _ H). unfold valid_records.
    rewrite (placed_cons_ok _ _ _ Hp), fmap_app, app_assoc.
    apply Permutation_app_tail.
    destruct p as [[k o]|]; cbn; [apply all_records_append|now rewrite app_nil_r].
Qed.

(** The run completes exactly when no line raises. *)
Lemma tile_lines_ok_iff lines : forall tiles,
  is_ok (tile_lines tiles lines) = true <-> Forall (fun ln => is_ok (place ln) = true) lines.
Proof.
  induction lines as [|ln rest IH]; intros tiles; cbn.
  - split; [constructor|reflexivity].
  - rewrite tile_line_step, Forall_cons. destruct (place ln) as [p|e]; cbn.
    + rewrite IH. tauto.
    + split; [discriminate|]. intros [H _]. discriminate.
Qed.

Lemma well_formed_place ln : well_formed ln = true -> is_ok (place ln) = true.
Proof.
  unfold well_formed, place, number_or_unusable.
  destruct (json_loads ln) as [[| | | | | |fields]|]; try discriminate; try reflexivity.
  destruct (is_none (dict_get "ra" fields) || is_none (dict_get "dec" fields));
    [reflexivity|].
  destruct (py_float (dict_get "ra" fields)) as [[ra| | |]|]; cbn;
    try discriminate; try reflexivity.
  destruct (py_float (dict_get "dec" fields)) as [[dec| | |]|]; cbn;
    try discriminate; reflexivity.
Qed.

Lemma unusable_place ln : unusable ln = true -> place ln = Ok None.
Proof.
  unfold unusable, place, converts.
  destruct (json_loads ln) as [[| | | | | |fields]|]; try discriminate; try reflexivity.
  destruct (is_none (dict_get "ra" fields) || is_none (dict_get "dec" fields));
    [reflexivity|]. cbn.
  destruct (py_float (dict_get "ra" fields)) as [ra|]; [|reflexivity].
  destruct (py_float (dict_get "dec" fields)) as [dec|]; [|reflexivity].
  cbn. discriminate.
Qed.

Lemma usable_place ln :
  usable ln = true ->
  exists fields ra dec,
    json_loads ln = Some (JObj fields) /\
    py_float (dict_get "ra" fields) = Some (Fin ra) /\
    py_float (dict_get "dec" fields) = Some (Fin dec) /\
    place ln = Ok (Some (tile_key (tx_q ra) (ty_q dec), JObj fields)).
Proof.
  unfold usable, place.
  destruct (json_loads ln) as [[| | | | | |fields]|]; try discriminate.
  destruct (py_float (dict_get "ra" fields)) as [[ra| | |]|] eqn:Hra; try discriminate.
  destruct (py_float (dict_get "dec" fields)) as [[dec| | |]|] eqn:Hdec; try discriminate.
  intros _. exists fields, ra, dec.
  assert (Hn1 : is_none (dict_get "ra" fields) = false).
  { destruct (dict_get "ra" fields); [discriminate Hra|reflexivity..]. }
  assert (Hn2 : is_none (dict_get "dec" fields) = false).
  { destruct (dict_get "dec" fields); [discriminate Hdec|reflexivity..]. }
  rewrite Hn1, Hn2. repeat split; assumption.
Qed.

Lemma place_ok_usable ln p :
  place ln = Ok p -> snd <$> p = if usable ln then json_loads ln else None.
Proof.
  unfold place, usable.
  destruct (json_loads ln) as [[| | | | | |fields]|]; try discriminate;
    try (intros [= <-]; reflexivity).
  destruct (is_none (dict_get "ra" fields) || is_none (dict_get "dec" fields)) eqn:Hn.
  { intros [= <-]. apply orb_true_iff in Hn as [Hn|Hn].
    - destruct (dict_get "ra" fields); try discriminate Hn. reflexivity.
    - destruct (dict_get "dec" fields); try discriminate Hn.
      destruct (py_float (dict_get "ra" fields)) as [[| | |]|]; reflexivity. }
  destruct (py_float (dict_get "ra" fields)) as [[ra| | |]|];
    destruct (py_float (dict_get "dec" fields)) as [[dec| | |]|]; cbn;
    try discriminate; intros [= <-]; reflexivity.
Qed.

Lemma valid_records_usable lines :
  Forall (fun ln => is_ok (place ln) = true) lines ->
  valid_records lines = omap (fun ln => if usable ln then json_loads ln else None) lines.
Proof.
  unfold valid_records, placed.
  induction 1 as [|ln rest Hok _ IH]; [reflexivity|]. cbn.
  destruct (place ln) as [p|] eqn:Hp; [|discriminate].
  rewrite <- (place_ok_usable _ _ Hp). destruct p as [[k o]|]; cbn; now rewrite IH.
Qed.

Lemma tile_lines_skip lines : forall tiles,
  tile_lines tiles lines = tile_lines tiles (filter (fun ln => unusable ln = false) lines).
Proof.
  induction lines as [|ln rest IH]; intros tiles; [reflexivity|].
  destruct (unusable ln) eqn:Hu.
  - rewrite filter_cons_False by (rewrite Hu; discriminate).
    cbn. rewrite tile_line_step, (unusable_place _ Hu). cbn. apply IH.
  - rewrite filter_cons_True by exact Hu.
    cbn. destruct (tile_line tiles ln); cbn; [apply IH|reflexivity].
Qed.

Lemma placed_origin lines key obj :
  (key, obj) ∈ placed lines ->
  exists ln, ln ∈ lines /\ json_loads ln = Some obj /\ unusable ln = false.
Proof.
  unfold placed. rewrite list_elem_of_omap. intros (ln & Hln & Hp).
  exists ln. split; [exact Hln|].
  destruct (unusable ln) eqn:Hu.
  { rewrite (unusable_place _ Hu) in Hp. discriminate. }
  split; [|reflexivity].
  unfold place in Hp.
  destruct (json_loads ln) as [[| | | | | |fields]|]; try discriminate.
  destruct (is_none (dict_get "ra" fields) || is_none (dict_get "dec" fields));
    [discriminate|].
  destruct (py_float (dict_get "ra" fields)) as [ra|]; [|discriminate].
  destruct (py_float (dict_get "dec" fields)) as [dec|]; [|discriminate].
  destruct (tile_tx ra); cbn in Hp; [|discriminate].
  destruct (tile_ty dec); cbn in Hp; [|discriminate].
  now injection Hp as _ <-.
Qed.

Lemma placed_key lines key obj :
  (key, obj) ∈ placed lines ->
  exists fields ra dec,
    obj = JObj fields /\
    py_float (dict_get "ra" fields) = Some (Fin ra) /\
    py_float (dict_get "dec" fields) = Some (Fin dec) /\
    key = tile_key (tx_q ra) (ty_q dec).
Proof.
  unfold placed. rewrite list_elem_of_omap. intros (ln & _ & Hp).
  unfold place in Hp.
  destruct (json_loads ln) as [[| | | | | |fields]|]; try discriminate.
  destruct (is_none (dict_get "ra" fields) || is_none (dict_get "dec" fields));
    [discriminate|].
  destruct (py_float (dict_get "ra" fields)) as [[ra| | |]|] eqn:Hra;
    try discriminate;
    destruct (py_float (dict_get "dec" fields)) as [[dec| | |]|] eqn:Hdec;
    try discriminate.
  cbn in Hp. injection Hp as <- <-. now exists fields, ra, dec.
Qed.

(** C3. Tiling is a partition of the valid records. On an input of
    well-formed lines the run completes, and whenever it completes:
    the valid records are the objects with numeric [ra] and [dec], in input
    order, each under the key of its indices [(tx, ty)]; each tile holds
    exactly the valid records whose key is the tile's, in input order, at an increasing list of positions of the valid
    records that are the positions of that key (so a position belongs to the
    tile of its key and to no other); only non-empty tiles exist; and the
    records of all tiles together are, as a multiset, the valid records. *)
Theorem tiling_is_partition (lines : list line) :
  (Forall (fun ln => well_formed ln = true) lines -> is_ok (build_tiles lines) = true) /\
  (forall tiles, build_tiles lines = Ok tiles ->
     valid_records lines
       = omap (fun ln => if usable ln then json_loads ln else None) lines /\
     (forall key obj, (key, obj) ∈ placed lines ->
        exists fields ra dec,
          obj = JObj fields /\
          py_float (dict_get "ra" fields) = Some (Fin ra) /\
          py_float (dict_get "dec" fields) = Some (Fin dec) /\
          key = tile_key (tx_q ra) (ty_q dec)) /\
     (forall key, tile_content tiles key = records_of_key key lines) /\
     (forall key, exists idx : list nat,
        StronglySorted lt idx /\
        (forall i, i ∈ idx <-> (placed lines).*1 !! i = Some key) /\
        tile_content tiles key = omap (fun i => valid_records lines !! i) idx) /\
     (forall i key key' obj obj',
        placed lines !! i = Some (key, obj) -> placed lines !! i = Some (key', obj') ->
        key = key' /\ obj = obj') /\
     dom tiles = list_to_set (placed lines).*1 /\
     no_empty_tile tiles /\
     all_records tiles ≡ₚ valid_records lines /\
     sum_list (length <$> (map_to_list tiles).*2) = length (valid_records lines)).
Proof.
  split.
  { intros Hwf. apply tile_lines_ok_iff.
    eapply Forall_impl; [exact Hwf|]. intros ln. apply well_formed_place. }
  intros tiles H. unfold build_tiles in H.
  assert (Hcontent : forall key, tile_content tiles key = records_of_key key lines).
  { intros key. now rewrite (tile_lines_content _ _ _ key H). }
  assert (Hperm : all_records tiles ≡ₚ valid_records lines).
  { rewrite (tile_lines_all_records _ _ _ H). unfold all_records.
    now rewrite map_to_list_empty. }
  split.
  { apply valid_records_usable, (tile_lines_ok_iff lines ∅).
    unfold build_tiles. now rewrite H. }
  split; [apply placed_key|].
  split; [exact Hcontent|].
  split.
  { intros key. destruct (filter_by_key_positions (placed lines) key)
      as (idx & Hs & Hm & Hc).
    exists idx. rewrite Hcontent. unfold records_of_key, valid_records. auto. }
  split; [intros i key key' obj obj' H1 H2; rewrite H1 in H2; now injection H2|].
  split; [rewrite (tile_lines_dom _ _ _ H); set_solver|].
  split.
  { eapply tile_lines_no_empty_tile; [|exact H]. intros key arr.
    rewrite lookup_empty. discriminate. }
  split; [exact Hperm|].
  rewrite <- (Permutation_length Hperm). unfold all_records.
  generalize ((map_to_list tiles).*2). clear.
  induction l as [|x l IH]; [reflexivity|]. cbn. rewrite length_app. now rewrite IH.
Qed.

(** *** Reading, failing, and tiling piece by piece *)

Lemma tile_lines_app l1 : forall tiles l2,
  tile_lines tiles (l1 ++ l2) = do tiles' <- tile_lines tiles l1; tile_lines tiles' l2.
Proof.
  induction l1 as [|ln l1 IH]; intros tiles l2; [reflexivity|]. cbn.
  destruct (tile_line tiles ln) as [t|e]; cbn; [apply IH|reflexivity].
Qed.

Lemma tile_lines_raise_at before ln after tiles e :
  Forall (fun l => is_ok (place l) = true) before ->
  place ln = Raise e ->
  tile_lines tiles (before ++ ln :: after) = Raise e.
Proof.
  intros Hb Hln. rewrite tile_lines_app.
  pose proof (proj2 (tile_lines_ok_iff before tiles) Hb) as Hok.
  destruct (tile_lines tiles before) as [t|]; [|discriminate]. cbn.
  now rewrite tile_line_step, Hln.
Qed.

Lemma tile_lines_raise_inv lines : forall tiles e,
  tile_lines tiles lines = Raise e ->
  exists before ln after,
    lines = before ++ ln :: after /\
    Forall (fun l => is_ok (place l) = true) before /\ place ln = Raise e.
Proof.
  induction lines as [|ln rest IH]; intros tiles e H; [discriminate|].
  cbn in H. rewrite tile_line_step in H.
  destruct (place ln) as [p|e'] eqn:Hp; cbn in H.
  - destruct (IH _ _ H) as (before & l & after & -> & Hb & Hl).
    exists (ln :: before), l, after. split; [reflexivity|].
    split; [|exact Hl]. constructor; [now rewrite Hp|exact Hb].
  - injection H as <-. exists [], ln, rest. repeat split; [constructor|exact Hp].
Qed.

(** A line the loop cannot take, with the error it raises: valid JSON that
    is no object, or an object whose [ra] and [dec] both pass [float] while
    one of them is NaN or infinite. *)
Definition bad_value (ln : line) (e : exn) : Prop :=
  (exists v, json_loads ln = Some v /\ (forall fields, v <> JObj fields) /\
             e = AttributeError) \/
  (exists fields ra dec,
     json_loads ln = Some (JObj fields) /\
     py_float (dict_get "ra" fields) = Some ra /\
     py_float (dict_get "dec" fields) = Some dec /\
     (is_finite ra = false /\ e = ValueError \/
      is_finite ra = true /\ dec = NaN /\ e = ValueError \/
      is_finite ra = true /\ (dec = PInf \/ dec = NInf) /\ e = OverflowError)).

Lemma place_raise_bad_value ln e : place ln = Raise e -> bad_value ln e.
Proof.
  unfold place, bad_value.
  destruct (json_loads ln) as [v|]; [|discriminate].
  destruct v as [| | | | | |fields];
    try (intros [= <-]; left; eexists; split; [reflexivity|]; split;
         [discriminate|reflexivity]).
  destruct (is_none (dict_get "ra" fields) || is_none (dict_get "dec" fields));
    [discriminate|].
  destruct (py_float (dict_get "ra" fields)) as [ra|] eqn:Hra; [|discriminate].
  destruct (py_float (dict_get "dec" fields)) as [dec|] eqn:Hdec; [|discriminate].
  intros H. right. exists fields, ra, dec.
  split; [reflexivity|]. split; [exact Hra|]. split; [exact Hdec|].
  destruct ra; cbn in H; try (injection H as <-; left; now split).
  destruct dec; cbn in H; try discriminate; injection H as <-; right.
  - right. split; [reflexivity|]. split; [now left|reflexivity].
  - right. split; [reflexivity|]. split; [now right|reflexivity].
  - left. now repeat split.
Qed.

Lemma bad_value_place_raise ln e : bad_value ln e -> place ln = Raise e.
Proof.
  unfold place.
  intros [(v & -> & Hno & ->)|(fields & ra & dec & -> & Hra & Hdec & H)].
  - destruct v; try reflexivity. now destruct (Hno fields).
  - assert (Hn : is_none (dict_get "ra" fields) || is_none (dict_get "dec" fields) = false).
    { destruct (dict_get "ra" fields); try discriminate Hra;
        destruct (dict_get "dec" fields); try discriminate Hdec; reflexivity. }
    rewrite Hn, Hra, Hdec.
    destruct H as [[Hf ->]|[(Hf & -> & ->)|(Hf & [->| ->] & ->)]];
      destruct ra; try discriminate Hf; reflexivity.
Qed.

Lemma place_ok_iff ln :
  is_ok (place ln) = true <-> unusable ln = true \/ usable ln = true.
Proof.
  split.
  - intros Hok. destruct (unusable ln) eqn:Hu; [now left|right].
    unfold place in Hok. unfold unusable, converts in Hu. unfold usable.
    destruct (json_loads ln) as [[| | | | | |fields]|]; try discriminate.
    destruct (is_none (dict_get "ra" fields) || is_none (dict_get "dec" fields));
      [discriminate|]. cbn in Hu.
    destruct (py_float (dict_get "ra" fields)) as [[ra| | |]|]; try discriminate;
      destruct (py_float (dict_get "dec" fields)) as [[dec| | |]|];
      try discriminate; reflexivity.
  - intros [Hu|Hu].
    + now rewrite (unusable_place _ Hu).
    + destruct (usable_place _ Hu) as (? & ? & ? & _ & _ & _ & ->). reflexivity.
Qed.

(** C7 (amended). The Tiler passes over the bad lines the contract lists,
    and over no others. A line that [json.loads] rejects, and an object that
    lacks [ra] or [dec] (absent or null) or has one that [float] rejects,
    leaves the tiles as they are and raises nothing; the run on the whole
    input is the run on the input without these lines; and no record of a
    tile comes from such a line. But the run ends without error exactly
    when every line is of this kind or an object with two finite
    coordinates: a line of valid JSON that is no object stops the run with
    [AttributeError] (line 22 is outside every [try]), and an object whose
    coordinates pass [float] while one is NaN or infinite stops it at
    lines 30-31. *)
Theorem bad_lines_are_skipped (lines : list line) :
  (forall tiles ln, unusable ln = true -> tile_line tiles ln = Ok tiles) /\
  build_tiles lines = build_tiles (filter (fun ln => unusable ln = false) lines) /\
  (forall tiles key obj,
     build_tiles lines = Ok tiles -> obj ∈ tile_content tiles key ->
     exists ln, ln ∈ lines /\ json_loads ln = Some obj /\ unusable ln = false) /\
  (is_ok (build_tiles lines) = true <->
   Forall (fun ln => unusable ln = true \/ usable ln = true) lines) /\
  (Forall (fun ln => unusable ln = true \/ usable ln = true) lines ->
     exists tiles, build_tiles lines = Ok tiles /\
       all_records tiles ≡ₚ valid_records (filter (fun ln => usable ln = true) lines)) /\
  (forall tiles ln v,
     json_loads ln = Some v -> (forall fields, v <> JObj fields) ->
     tile_line tiles ln = Raise AttributeError) /\
  (forall tiles ln fields ra dec,
     json_loads ln = Some (JObj fields) ->
     py_float (dict_get "ra" fields) = Some ra ->
     py_float (dict_get "dec" fields) = Some dec ->
     is_finite ra && is_finite dec = false ->
     tile_line tiles ln = Raise ValueError \/
     tile_line tiles ln = Raise OverflowError) /\
  (forall before ln after e,
     Forall (fun l => unusable l = true \/ usable l = true) before ->
     (forall tiles, tile_line tiles ln = Raise e) ->
     build_tiles (before ++ ln :: after) = Raise e).
Proof.
  assert (Hcomplete : is_ok (build_tiles lines) = true <->
            Forall (fun ln => unusable ln = true \/ usable ln = true) lines).
  { unfold build_tiles. rewrite tile_lines_ok_iff. apply Forall_proper; [|reflexivity].
    intros ln. apply place_ok_iff. }
  split.
  { intros tiles ln Hu. now rewrite tile_line_step, (unusable_place _ Hu). }
  split; [apply tile_lines_skip|].
  split.
  { intros tiles key obj H Hin. unfold build_tiles in H.
    rewrite (tile_lines_content _ _ _ key H) in Hin. cbn in Hin.
    unfold records_of_key in Hin.
    apply list_elem_of_fmap in Hin as ([k o] & -> & Hin).
    apply list_elem_of_filter in Hin as [_ Hin].
    now apply placed_origin in Hin. }
  split; [exact Hcomplete|].
  split.
  { intros Hall.
    pose proof (proj2 Hcomplete Hall) as Hok.
    destruct (build_tiles lines) as [tiles|] eqn:Hb; [|discriminate].
    exists tiles. split; [reflexivity|].
    rewrite (tile_lines_all_records _ _ _ Hb). unfold all_records.
    rewrite map_to_list_empty. cbn. unfold valid_records.
    assert (Heq : placed lines = placed (filter (fun ln => usable ln = true) lines)).
    { clear Hb Hok Hcomplete.
      induction Hall as [|ln rest [Hu|Hu] _ IH]; [reflexivity| |].
      - rewrite (placed_cons_ok _ _ _ (unusable_place _ Hu)).
        rewrite filter_cons_False; [exact IH|].
        intros Hus. destruct (usable_place _ Hus) as (? & ? & ? & _ & _ & _ & Hp).
        rewrite (unusable_place _ Hu) in Hp. discriminate.
      - destruct (usable_place _ Hu) as (? & ? & ? & _ & _ & _ & Hp).
        rewrite filter_cons_True by exact Hu.
        rewrite !(placed_cons_ok _ _ _ Hp). now rewrite IH. }
    now rewrite <- Heq. }
  split.
  { intros tiles ln v Hv Hno. rewrite tile_line_step.
    rewrite (bad_value_place_raise ln AttributeError); [reflexivity|].
    left. now exists v. }
  split.
  { intros tiles ln fields ra dec Hl Hra Hdec Hfin. rewrite tile_line_step.
    assert (Hn : is_none (dict_get "ra" fields) || is_none (dict_get "dec" fields) = false).
    { destruct (dict_get "ra" fields); try discriminate Hra;
        destruct (dict_get "dec" fields); try discriminate Hdec; reflexivity. }
    unfold place. rewrite Hl, Hn, Hra, Hdec.
    destruct ra, dec; try discriminate Hfin; cbn; auto. }
  intros before ln after e Hb Hln. unfold build_tiles.
  apply tile_lines_raise_at.
  - eapply Forall_impl; [exact Hb|]. intros l. apply place_ok_iff.
  - specialize (Hln ∅). rewrite tile_line_step in Hln.
    destruct (place ln) as [p|e']; cbn in Hln; congruence.
Qed.

(** X4. The Tiler stops at the first line it cannot take, with the error of
    that line, and such a line is one of two kinds: valid JSON that is no
    object ([AttributeError] from [obj.get]), or an object whose [ra] and
    [dec] both pass [float] while [ra] is NaN or infinite or [dec] is NaN
    ([ValueError] from [math.floor]) or [dec] is infinite
    ([OverflowError]). *)
Theorem tiler_stops_at_first_bad_value (lines : list line) (e : exn) :
  build_tiles lines = Raise e <->
  exists before ln after,
    lines = before ++ ln :: after /\
    Forall (fun l => forall e', ~ bad_value l e') before /\
    bad_value ln e.
Proof.
  assert (Hok : forall l, is_ok (place l) = true <-> forall e', ~ bad_value l e').
  { intros l. split.
    - intros H e' Hbad. apply bad_value_place_raise in Hbad.
      rewrite Hbad in H. discriminate.
    - intros H. destruct (place l) as [p|e'] eqn:Hp; [reflexivity|].
      now destruct (H e' (place_raise_bad_value _ _ Hp)). }
  split.
  - intros H. apply tile_lines_raise_inv in H
      as (before & ln & after & -> & Hb & Hl).
    exists before, ln, after. split; [reflexivity|]. split.
    + eapply Forall_impl; [exact Hb|]. intros l. apply Hok.
    + now apply place_raise_bad_value.
  - intros (before & ln & after & -> & Hb & Hl).
    apply tile_lines_raise_at.
    + eapply Forall_impl; [exact Hb|]. intros l. apply Hok.
    + now apply bad_value_place_raise.
Qed.

(** X5. Tiling goes piece by piece: when two inputs are tiled without
    error, so is the first followed by the second, and each tile of the
    whole holds the records of the first input and then those of the
    second; an error in the first input is the error of the whole. *)
Theorem tiling_of_concatenation (l1 l2 : list line) :
  (forall t1 t2,
     build_tiles l1 = Ok t1 -> build_tiles l2 = Ok t2 ->
     exists t,
       build_tiles (l1 ++ l2) = Ok t /\
       dom t = dom t1 ∪ dom t2 /\
       forall key, tile_content t key = tile_content t1 key ++ tile_content t2 key) /\
  (forall e, build_tiles l1 = Raise e -> build_tiles (l1 ++ l2) = Raise e).
Proof.
  unfold build_tiles. split.
  - intros t1 t2 H1 H2. rewrite tile_lines_app, H1. cbn.
    assert (Hok : is_ok (tile_lines t1 l2) = true).
    { apply tile_lines_ok_iff. apply (tile_lines_ok_iff l2 ∅). now rewrite H2. }
    destruct (tile_lines t1 l2) as [t|] eqn:Ht; [|discriminate].
    exists t. split; [reflexivity|]. split.
    + rewrite (tile_lines_dom _ _ _ Ht), (tile_lines_dom _ _ _ H2). set_solver.
    + intros key. rewrite (tile_lines_content _ _ _ key Ht).
      now rewrite (tile_lines_content _ _ _ key H2).
  - intros e H. now rewrite tile_lines_app, H.
Qed.

(** X6. The lines the Tiler keeps are the non-blank lines of the file, in
    file order, each without its leading and trailing whitespace, in the
    sense of [str.isspace] on every code point: a kept line is not empty,
    has no whitespace left to strip at either end (its first and its last
    character are none of the whitespace characters of Unicode), and is a
    line of the file between two runs of whitespace; reading the kept lines
    again keeps them all as they are. *)
Theorem kept_lines_are_trimmed (raw : list PyText.text) :
  Forall (fun ln => ln <> [] /\ PyText.lstrip ln = ln /\ PyText.rstrip ln = ln)
         (read_lines raw) /\
  Forall (fun ln =>
            (forall c rest, ln = c :: rest -> c ∉ PyText.whitespace) /\
            (forall front c, ln = front ++ [c] -> c ∉ PyText.whitespace))
         (read_lines raw) /\
  (forall ln, ln ∈ read_lines raw ->
     exists src l r,
       src ∈ raw /\ src = l ++ ln ++ r /\
       Forall (fun c => PyText.isspace c = true) l /\
       Forall (fun c => PyText.isspace c = true) r) /\
  read_lines (read_lines raw) = read_lines raw /\
  length (read_lines raw) <= length raw.
Proof.
  unfold read_lines. split; [|split; [|split; [|split]]].
  - apply Forall_fmap, Forall_forall. intros ln Hln.
    apply list_elem_of_filter in Hln as [Hne _]. cbn.
    split; [exact Hne|]. apply PyText.text_strip_fixed.
  - apply Forall_fmap, Forall_forall. intros ln _. cbn.
    destruct (PyText.text_strip_fixed ln) as [Hl Hr]. split.
    + intros c rest E. rewrite E in Hl. apply PyText.text_lstrip_head in Hl.
      rewrite <- PyText.isspace_whitespace. congruence.
    + intros front c E. rewrite E in Hr. apply PyText.text_rstrip_last in Hr.
      rewrite <- PyText.isspace_whitespace. congruence.
  - intros ln Hln. apply list_elem_of_fmap in Hln as (src & -> & Hsrc).
    apply list_elem_of_filter in Hsrc as [_ Hsrc].
    destruct (PyText.text_strip_split src) as (l & r & Hs & Hl & Hr).
    now exists src, l, r.
  - induction raw as [|ln raw IH]; [reflexivity|].
    destruct (decide (PyText.strip ln = [])) as [E|E].
    + now rewrite filter_cons_False by (intros H; now apply H).
    + rewrite filter_cons_True by exact E. cbn [fmap list_fmap].
      rewrite filter_cons_True by (now rewrite PyText.text_strip_idempotent).
      cbn [fmap list_fmap]. rewrite PyText.text_strip_idempotent. f_equal. exact IH.
  - rewrite length_fmap. apply length_filter.
Qed.

End Tiling.
End Tiler.

(** ** The Tiler's output files ([scripts/tile_data_py.py], lines 36-46) *)

Module Writer.
Import PyStr Json.

Definition newline : string := String "010" "".
Definition crlf : string := String "013" newline.

(** The system the script runs on. The script meets it twice: a file opened
    in text mode writes [os.linesep] for every newline of the text, and
    [os.path.join] puts the separator of the system between the directory
    and the file name. *)
Inductive platform : Type :=
| Posix
| Windows.

(** [os.linesep] *)
Definition linesep (os : platform) : string :=
  match os with
  | Posix => newline
  | Windows => crlf
  end.

Definition path_sep (os : platform) : string :=
  match os with
  | Posix => "/"
  | Windows => String "092" ""
  end.

(** A second component that [os.path.join] takes as it is, dropping the
    first: on POSIX one that starts with a slash; on Windows one that
    starts with a slash or a backslash, or that names a drive (its second
    character is a colon). *)
Definition path_abs (os : platform) (b : string) : bool :=
  match os with
  | Posix => startswith "/" b
  | Windows =>
      startswith "/" b || startswith (String "092" "") b
      || match b with
         | String _ (String c _) => Ascii.eqb c ":"
         | _ => false
         end
  end.

(** What a file opened with [open(path, "w")] stores for a text. *)
Fixpoint text_mode (os : platform) (s : string) : string :=
  match s with
  | String c rest =>
      if Ascii.eqb c "010" then linesep os +:+ text_mode os rest
      else String c (text_mode os rest)
  | EmptyString => EmptyString
  end.

(** The text the contract describes: one JSON text per line, each line
    ended by the separator [sep]. *)
Definition ndjson (sep : string) (texts : list string) : string :=
  foldr (fun t acc => t +:+ sep +:+ acc) "" texts.

Section Writing.

(** The content of a file. *)
Context {bytes : Type}.

Variable os : platform.

(** [os.path.join(a, b)] for a relative directory [a] that names no drive
    and does not end in a separator, as [OUTDIR] is. *)
Definition path_join (a b : string) : string :=
  if path_abs os b then b else a +:+ path_sep os +:+ b.

(** [path_plain = os.path.join(OUTDIR, f"{key}.ndjson")] and
    [path_gz = path_plain + ".gz"]. *)
Definition path_plain (key : string) : string :=
  path_join Tiler.OUTDIR (key +:+ ".ndjson").

Definition path_gz (key : string) : string := path_plain key +:+ ".gz".

(** [json.dumps(x, default=str)], [s.encode("utf8")], and what
    [gzip.open(path, "wb")] stores for the bytes written to it together with
    its inverse, the content [gzip.open(path, "rb")] reads back ([None] for a
    file that is no gzip stream). *)
Variable json_dumps : json -> string.
Variable encode_utf8 : string -> bytes.
Variable gzip_compress : bytes -> bytes.
Variable gzip_decompress : bytes -> option bytes.

(** Line 38: [plain = "\n".join(json.dumps(x, default=str) for x in arr) + "\n"]. *)
Definition plain_text (arr : list json) : string :=
  join newline (json_dumps <$> arr) +:+ newline.

(** Lines 38-45 for one tile, on a file system given as the content of each
    path: the plain file is written in text mode, the gzip file in binary
    mode. *)
Definition write_tile (fs : gmap string bytes) (tile : string * list json)
  : gmap string bytes :=
  let plain := plain_text tile.2 in
  let fs1 := <[path_plain tile.1 := encode_utf8 (text_mode os plain)]> fs in
  <[path_gz tile.1 := gzip_compress (encode_utf8 plain)]> fs1.

(** Lines 36-46: the file system after the loop, and [written]. *)
Definition write_tiles (tiles : gmap string (list json)) (fs : gmap string bytes)
  : gmap string bytes * nat :=
  (foldl write_tile fs (map_to_list tiles), length (map_to_list tiles)).

(** *** Paths *)

Lemma path_join_outdir (b : string) :
  path_join Tiler.OUTDIR b
  = if path_abs os b then b else (Tiler.OUTDIR +:+ path_sep os) +:+ b.
Proof. unfold path_join. now rewrite sapp_assoc. Qed.

Lemma path_abs_outdir (s : string) :
  path_abs os ((Tiler.OUTDIR +:+ path_sep os) +:+ s) = false.
Proof. destruct os; reflexivity. Qed.

Lemma path_join_inj (b b' : string) :
  path_join Tiler.OUTDIR b = path_join Tiler.OUTDIR b' -> b = b'.
Proof.
  rewrite !path_join_outdir.
  destruct (path_abs os b) eqn:E, (path_abs os b') eqn:E'; intros H.
  - exact H.
  - rewrite H, path_abs_outdir in E. discriminate.
  - rewrite <- H, path_abs_outdir in E'. discriminate.
  - now apply String.app_inj in H.
Qed.

Lemma path_plain_inj (key key' : string) : path_plain key = path_plain key' -> key = key'.
Proof.
  unfold path_plain. intros H. apply path_join_inj in H. now apply sapp_inj_r in H.
Qed.

Lemma path_gz_inj (key key' : string) : path_gz key = path_gz key' -> key = key'.
Proof.
  unfold path_gz. intros H. apply sapp_inj_r in H. now apply path_plain_inj.
Qed.

(** A plain file and a compressed file never share a path. *)
Lemma path_plain_ne_gz (key key' : string) : path_plain key <> path_gz key'.
Proof.
  unfold path_gz, path_plain.
  assert (Hend : forall k, exists s, path_join Tiler.OUTDIR (k +:+ ".ndjson") = s +:+ "n").
  { intros k. rewrite path_join_outdir. destruct (path_abs os _).
    - exists (k +:+ ".ndjso"). now rewrite sapp_assoc.
    - exists ((Tiler.OUTDIR +:+ path_sep os) +:+ k +:+ ".ndjso").
      now rewrite !sapp_assoc. }
  destruct (Hend key) as [s ->].
  change ".gz" with (".g" +:+ "z"). rewrite <- sapp_assoc.
  apply sapp_last_ne. discriminate.
Qed.

(** *** Text mode *)

Lemma text_mode_app (a b : string) :
  text_mode os (a +:+ b) = text_mode os a +:+ text_mode os b.
Proof.
  induction a as [|c a IH]; [reflexivity|].
  rewrite sapp_cons. cbn [text_mode]. rewrite IH.
  destruct (Ascii.eqb c "010"); [now rewrite sapp_assoc|now rewrite sapp_cons].
Qed.

Lemma text_mode_no_newline (s : string) :
  contains_char "010" s = false -> text_mode os s = s.
Proof.
  induction s as [|c s IH]; [reflexivity|]. cbn [contains_char text_mode].
  intros H. apply orb_false_iff in H as [Hc Hs]. now rewrite Hc, IH.
Qed.

Lemma text_mode_newline : text_mode os newline = linesep os.
Proof. cbn. apply sapp_nil_r. Qed.

Lemma text_mode_posix (s : string) : os = Posix -> text_mode os s = s.
Proof.
  intros ->. induction s as [|c s IH]; [reflexivity|]. cbn [text_mode]. rewrite IH.
  destruct (Ascii.eqb_spec c "010") as [->|]; reflexivity.
Qed.

(** The text of line 38 is the text the contract describes, for a tile that
    holds a record. *)
Lemma plain_text_ndjson (arr : list json) :
  arr <> [] -> plain_text arr = ndjson newline (json_dumps <$> arr).
Proof.
  unfold plain_text. induction arr as [|x arr IH]; [congruence|]. intros _.
  destruct arr as [|y arr].
  - cbn. now rewrite sapp_nil_r.
  - change (json_dumps <$> x :: y :: arr)
      with (json_dumps x :: (json_dumps <$> y :: arr)).
    rewrite join_cons by discriminate.
    change (ndjson newline (json_dumps x :: (json_dumps <$> y :: arr)))
      with (json_dumps x +:+ newline +:+ ndjson newline (json_dumps <$> y :: arr)).
    rewrite <- IH by discriminate. now rewrite !sapp_assoc.
Qed.

Lemma text_mode_ndjson (texts : list string) :
  Forall (fun t => contains_char "010" t = false) texts ->
  text_mode os (ndjson newline texts) = ndjson (linesep os) texts.
Proof.
  induction 1 as [|t texts Ht _ IH]; [reflexivity|].
  change (ndjson newline (t :: texts)) with (t +:+ newline +:+ ndjson newline texts).
  change (ndjson (linesep os) (t :: texts))
    with (t +:+ linesep os +:+ ndjson (linesep os) texts).
  rewrite !text_mode_app, text_mode_newline, (text_mode_no_newline _ Ht).
  now rewrite IH.
Qed.

(** *** The files of a tile after the loop *)

Lemma write_tile_other fs tile path :
  path <> path_plain tile.1 -> path <> path_gz tile.1 ->
  write_tile fs tile !! path = fs !! path.
Proof.
  intros H1 H2. unfold write_tile. now rewrite !lookup_insert_ne by congruence.
Qed.

Lemma write_tile_files fs tile :
  write_tile fs tile !! path_plain tile.1
    = Some (encode_utf8 (text_mode os (plain_text tile.2))) /\
  write_tile fs tile !! path_gz tile.1
    = Some (gzip_compress (encode_utf8 (plain_text tile.2))).
Proof.
  unfold write_tile. split.
  - rewrite lookup_insert_ne by (symmetry; apply path_plain_ne_gz).
    apply lookup_insert_eq.
  - apply lookup_insert_eq.
Qed.

Lemma foldl_write_tile_other (l : list (string * list json)) : forall fs key,
  key ∉ l.*1 ->
  foldl write_tile fs l !! path_plain key = fs !! path_plain key /\
  foldl write_tile fs l !! path_gz key = fs !! path_gz key.
Proof.
  induction l as [|tile l IH]; intros fs key Hnot; [now split|].
  cbn in Hnot. apply not_elem_of_cons in Hnot as [Hne Hnot].
  cbn. destruct (IH (write_tile fs tile) key Hnot) as [-> ->].
  split; apply write_tile_other.
  - intros H. apply path_plain_inj in H. congruence.
  - apply path_plain_ne_gz.
  - intros H. symmetry in H. now apply path_plain_ne_gz in H.
  - intros H. apply path_gz_inj in H. congruence.
Qed.

Lemma foldl_write_tile_files (l : list (string * list json)) : forall fs key arr,
  NoDup l.*1 -> (key, arr) ∈ l ->
  foldl write_tile fs l !! path_plain key
    = Some (encode_utf8 (text_mode os (plain_text arr))) /\
  foldl write_tile fs l !! path_gz key
    = Some (gzip_compress (encode_utf8 (plain_text arr))).
Proof.
  induction l as [|tile l IH]; intros fs key arr Hnd Hin.
  - now apply elem_of_nil in Hin.
  - cbn in Hnd. apply NoDup_cons in Hnd as [Hfresh Hnd].
    apply elem_of_cons in Hin as [<-|Hin]; cbn.
    + destruct (foldl_write_tile_other l (write_tile fs (key, arr)) key Hfresh)
        as [-> ->].
      apply (write_tile_files fs (key, arr)).
    + now apply IH.
Qed.

(** C4 (amended). For every tile the Tiler writes, the plain file holds the
    UTF-8 encoding of the tile's records, one JSON text per line, each line
    ended by the line separator of the system, and the gzip file
    decompresses to the same records with each line ended by a newline. On
    a system whose line separator is the newline the gzip file therefore
    decompresses to the very bytes of the plain file beside it; where the
    separator is CR LF the plain file, written in text mode, differs from
    the content of the gzip file, written in binary mode. *)
Theorem gzip_tile_round_trip (tiles : gmap string (list json))
    (fs : gmap string bytes) (key : string) (arr : list json) :
  (forall b, gzip_decompress (gzip_compress b) = Some b) ->
  (forall x, contains_char "010" (json_dumps x) = false) ->
  tiles !! key = Some arr -> arr <> [] ->
  exists plain gz,
    (write_tiles tiles fs).1 !! path_plain key = Some plain /\
    (write_tiles tiles fs).1 !! path_gz key = Some gz /\
    plain = encode_utf8 (ndjson (linesep os) (json_dumps <$> arr)) /\
    gzip_decompress gz = Some (encode_utf8 (ndjson newline (json_dumps <$> arr))) /\
    (os = Posix -> gzip_decompress gz = Some plain).
Proof.
  intros Hgzip Hdumps Hkey Hne.
  destruct (foldl_write_tile_files (map_to_list tiles) fs key arr) as [Hp Hg].
  { apply NoDup_fst_map_to_list. }
  { now apply elem_of_map_to_list. }
  rewrite (plain_text_ndjson arr Hne) in Hp, Hg.
  rewrite text_mode_ndjson in Hp
    by (apply Forall_fmap, Forall_forall; intros x _; apply Hdumps).
  eexists _, _. split; [exact Hp|]. split; [exact Hg|].
  split; [reflexivity|]. split; [apply Hgzip|].
  intros ->. apply Hgzip.
Qed.

(** *** What the loop leaves alone *)

Lemma foldl_write_tile_frame (l : list (string * list json)) : forall fs path,
  (forall key, key ∈ l.*1 -> path <> path_plain key /\ path <> path_gz key) ->
  foldl write_tile fs l !! path = fs !! path.
Proof.
  induction l as [|tile l IH]; intros fs path Hpath; [reflexivity|]. cbn.
  rewrite IH.
  - destruct (Hpath tile.1) as [H1 H2]; [apply list_elem_of_here|].
    now apply write_tile_other.
  - intros key Hkey. apply Hpath. now apply list_elem_of_further.
Qed.

Lemma dom_keys_of_map (tiles : gmap string (list json)) (key : string) :
  key ∈ (map_to_list tiles).*1 <-> key ∈ dom tiles.
Proof.
  rewrite elem_of_dom, list_elem_of_fmap. split.
  - intros ([k arr] & -> & H). apply elem_of_map_to_list in H. now exists arr.
  - intros [arr H]. exists (key, arr). split; [reflexivity|].
    now apply elem_of_map_to_list.
Qed.

(** X7. The writing loop touches the two files of each tile and nothing
    else: every other path of the file system keeps what it held (or stays
    absent), each tile has its plain and its gzip file afterwards, whatever
    was there before, and [written] is the number of tiles. *)
Theorem writer_touches_only_tile_files (tiles : gmap string (list json))
    (fs : gmap string bytes) :
  (forall path,
     (forall key, key ∈ dom tiles -> path <> path_plain key /\ path <> path_gz key) ->
     (write_tiles tiles fs).1 !! path = fs !! path) /\
  (forall key, key ∈ dom tiles ->
     is_Some ((write_tiles tiles fs).1 !! path_plain key) /\
     is_Some ((write_tiles tiles fs).1 !! path_gz key)) /\
  (write_tiles tiles fs).2 = size tiles.
Proof.
  split; [|split].
  - intros path Hpath. cbn. apply foldl_write_tile_frame.
    intros key Hkey. apply Hpath. now apply dom_keys_of_map.
  - intros key Hkey. apply elem_of_dom in Hkey as [arr Hkey].
    destruct (foldl_write_tile_files (map_to_list tiles) fs key arr) as [Hp Hg].
    { apply NoDup_fst_map_to_list. }
    { now apply elem_of_map_to_list. }
    cbn. rewrite Hp, Hg. split; eauto.
  - cbn. apply length_map_to_list.
Qed.

End Writing.
End Writer.

(** ** The Tiler from the file to the tiles ([scripts/tile_data_py.py], lines 10-46) *)

Module TilerRun.
Import PyStr Json.

Section Run.

Context {bytes : Type}.
Variable os : Writer.platform.
Variable json_loads : PyText.text -> option json.
Variable float_of_str : string -> option PyNum.pyfloat.
Variable json_dumps : json -> string.
Variable encode_utf8 : string -> bytes.
Variable gzip_compress : bytes -> bytes.

(** The script from the lines of the input file on: the file system after
    the run and [written], or the error that stops the run before anything
    is written. *)
Definition tiler_main (raw : list PyText.text) (fs : gmap string bytes)
  : result (gmap string bytes * nat) :=
  do tiles <- Tiler.build_tiles json_loads float_of_str (Tiler.read_lines raw);
  Ok (Writer.write_tiles os json_dumps encode_utf8 gzip_compress tiles fs).

(** The valid records of the file under a key, in file order. *)
Definition records_under (raw : list PyText.text) (key : string) : list json :=
  Tiler.records_of_key json_loads float_of_str key (Tiler.read_lines raw).

(** X8. After a run that ends, the plain file of every key that has valid
    records holds exactly these records, in the order of the input file:
    the JSON text of each followed by the line separator of the system, and
    nothing else; the gzip file holds the compressed form of the same
    texts, each followed by a newline; the files of a key without records
    are not written; and [written] counts the keys that have records. *)
Theorem tile_files_hold_the_records (raw : list PyText.text)
    (fs fs' : gmap string bytes) (written : nat) :
  (forall x, contains_char "010" (json_dumps x) = false) ->
  tiler_main raw fs = Ok (fs', written) ->
  (forall key,
     records_under raw key <> [] ->
     fs' !! Writer.path_plain os key
       = Some (encode_utf8
                 (Writer.ndjson (Writer.linesep os)
                    (json_dumps <$> records_under raw key))) /\
     fs' !! Writer.path_gz os key
       = Some (gzip_compress
                 (encode_utf8
                    (Writer.ndjson Writer.newline
                       (json_dumps <$> records_under raw key))))) /\
  (forall key,
     records_under raw key = [] ->
     fs' !! Writer.path_plain os key = fs !! Writer.path_plain os key /\
     fs' !! Writer.path_gz os key = fs !! Writer.path_gz os key) /\
  (forall key obj,
     obj ∈ records_under raw key ->
     exists src, src ∈ raw /\ PyText.strip src <> [] /\
                 json_loads (PyText.strip src) = Some obj) /\
  written
  = size (list_to_set
            (Tiler.placed json_loads float_of_str (Tiler.read_lines raw)).*1 : gset string).
Proof.
  intros Hdumps. unfold tiler_main, records_under.
  set (lines := Tiler.read_lines raw).
  destruct (Tiler.build_tiles json_loads float_of_str lines) as [tiles|] eqn:Hb;
    [|discriminate].
  cbn. intros [= <- <-]. unfold Tiler.build_tiles in Hb.
  assert (Hcontent : forall key,
            Tiler.tile_content tiles key
            = Tiler.records_of_key json_loads float_of_str key lines).
  { intros key. now rewrite (Tiler.tile_lines_content _ _ _ _ _ key Hb). }
  assert (Hfull : Tiler.no_empty_tile tiles).
  { eapply Tiler.tile_lines_no_empty_tile; [|exact Hb].
    intros key arr. rewrite lookup_empty. discriminate. }
  split; [|split; [|split]].
  - intros key Hne. specialize (Hcontent key). unfold Tiler.tile_content in Hcontent.
    destruct (tiles !! key) as [arr|] eqn:Hk; cbn in Hcontent; [|congruence].
    subst arr.
    destruct (Writer.foldl_write_tile_files os json_dumps encode_utf8 gzip_compress
                (map_to_list tiles) fs key _ (NoDup_fst_map_to_list tiles)
                (proj2 (elem_of_map_to_list tiles key _) Hk)) as [Hp Hg].
    rewrite (Writer.plain_text_ndjson json_dumps _ Hne) in Hp, Hg.
    rewrite Writer.text_mode_ndjson in Hp
      by (apply Forall_fmap, Forall_forall; intros x _; apply Hdumps).
    now split.
  - intros key Hnone. specialize (Hcontent key). unfold Tiler.tile_content in Hcontent.
    assert (Hk : tiles !! key = None).
    { destruct (tiles !! key) as [arr|] eqn:Hk; [|reflexivity].
      cbn in Hcontent. destruct (Hfull key arr Hk). congruence. }
    apply Writer.foldl_write_tile_other.
    rewrite Writer.dom_keys_of_map. now apply not_elem_of_dom.
  - intros key obj Hin. unfold Tiler.records_of_key in Hin.
    apply list_elem_of_fmap in Hin as ([k o] & -> & Hin).
    apply list_elem_of_filter in Hin as [_ Hin].
    apply Tiler.placed_origin in Hin as (ln & Hln & Hobj & _).
    unfold lines, Tiler.read_lines in Hln.
    apply list_elem_of_fmap in Hln as (src & -> & Hsrc).
    apply list_elem_of_filter in Hsrc as [Hne Hsrc].
    now exists src.
  - pose proof (Tiler.tile_lines_dom _ _ _ _ _ Hb) as Hdom.
    rewrite dom_empty_L, (left_id_L ∅ (∪)) in Hdom.
    rewrite <- Hdom, size_dom. apply length_map_to_list.
Qed.

End Run.
End TilerRun.

(** ** The Normalizer ([scripts/fetch_hipparcos_vizier.py], lines 38-85) *)

Module Normalizer.
Import PyNum PyStr.
Local Open Scope Q_scope.

(** A value of the fetched table: a number, a string, or a missing value
    ([NaN], [None], [pd.NA] or a masked entry). *)
Inductive cell : Type :=
| CNum (q : Q)
| CStr (s : string)
| CNA.

(** The fetched table: its column names and its rows. *)
Record table : Type := {
  columns : list string;
  rows : list (gmap string cell)
}.

(** A row of the normalized catalogue, a missing value being [None]. *)
Record star : Type := {
  hip : cell;
  ra : option Q;
  dec : option Q;
  dist_pc : option Q;
  vmag : option Q;
  plx : option Q;
  bv : option Q;
  sp_type : option string;
  absmag : option Q;
  temp_k : option Q
}.

(** [df[c]] in a row, missing when the table has no such column. *)
Definition at_col (r : gmap string cell) (c : string) : cell := default CNA (r !! c).

(** [[c for c in df.columns if c.upper().startswith(p)]], first element. *)
Definition first_col (p : string) (cols : list string) : option string :=
  head (filter (fun c => startswith p (upper c) = true) cols).

Section Normalize.

(** [pd.to_numeric(..., errors="coerce")] on a string ([None] for what it
    coerces to NaN), [str(x)] of a number, and [np.log10]. *)
Variable parse_num : string -> option Q.
Variable show_num : Q -> string.
Variable log10 : Q -> Q.

Definition to_numeric (c : cell) : option Q :=
  match c with
  | CNum q => Some q
  | CStr s => parse_num s
  | CNA => None
  end.

(** Line 61: [astype(str).fillna('').replace('nan','').str.strip()]. *)
Definition clean_sp_type (c : cell) : string :=
  let s := match c with
           | CNum q => show_num q
           | CStr s => s
           | CNA => "nan"
           end in
  strip (if String.eqb s "nan" then "" else s).

(** Line 65: [1000.0/p if pd.notna(p) and p>0 else None]. *)
Definition dist_of_plx (p : option Q) : option Q :=
  match p with
  | Some p => if Qlt_le_dec 0 p then Some (1000 / p) else None
  | None => None
  end.

(** Lines 67-71. *)
Definition compute_absmag (d m : option Q) : option Q :=
  match d, m with
  | Some d, Some m =>
      if Qlt_le_dec 0 d then Some (m - 5 * (log10 d - 1)) else None
  | _, _ => None
  end.

(** Lines 74-79: a division by zero raises and the bare [except] answers
    [None]. *)
Definition bv_to_temp (b : option Q) : option Q :=
  match b with
  | None => None
  | Some b =>
      let d1 := 0.92 * b + 1.7 in
      let d2 := 0.92 * b + 0.62 in
      if Qeq_bool d1 0 || Qeq_bool d2 0 then None
      else Some (4600 * (1 / d1 + 1 / d2))
  end.

(** Lines 40-80 on one row. *)
Definition normalize_row (cols : list string) (r : gmap string cell) : star :=
  let has c := bool_decide (c ∈ cols) in
  let ra_dec :=
    if has "RAICRS" && has "DEICRS"
    then (to_numeric (at_col r "RAICRS"), to_numeric (at_col r "DEICRS"))
    else (first_col "RA" cols ≫= (fun c => to_numeric (at_col r c)),
          first_col "DE" cols ≫= (fun c => to_numeric (at_col r c))) in
  let vmag := to_numeric (at_col r "Vmag") in
  let plx := to_numeric (at_col r "Plx") in
  let bv := if has "B-V" then to_numeric (at_col r "B-V") else None in
  let dist_pc := dist_of_plx plx in
  {| hip := at_col r "HIP";
     ra := ra_dec.1;
     dec := ra_dec.2;
     dist_pc := dist_pc;
     vmag := vmag;
     plx := plx;
     bv := bv;
     sp_type := if has "SpType" then Some (clean_sp_type (at_col r "SpType")) else None;
     absmag := compute_absmag dist_pc vmag;
     temp_k := bv_to_temp bv |}.

(** Line 84: [dropna(subset=['ra','dec','vmag'])]. *)
Definition complete (s : star) : bool :=
  bool_decide (is_Some (ra s)) && bool_decide (is_Some (dec s))
  && bool_decide (is_Some (vmag s)).

Definition normalize_and_compute (df : table) : list star :=
  filter (fun s => complete s = true) (normalize_row (columns df) <$> rows df).

(** A catalogue of one star with magnitude and colour but no parallax. *)
Definition star_without_parallax : table :=
  {| columns := ["HIP"; "RAICRS"; "DEICRS"; "Vmag"; "B-V"];
     rows := [ {[ "HIP" := CNum 7; "RAICRS" := CNum 10; "DEICRS" := CNum (-5);
                  "Vmag" := CNum 6; "B-V" := CNum 1 ]} ] |}.

(** *** The dependency rules *)

Lemma dist_of_plx_some p d :
  dist_of_plx p = Some d -> exists x, p = Some x /\ 0 < x /\ d = 1000 / x.
Proof.
  destruct p as [x|]; cbn; [|discriminate].
  destruct (Qlt_le_dec 0 x) as [Hpos|]; [|discriminate].
  intros [= <-]. eauto.
Qed.

Lemma dist_of_plx_none p :
  (p = None \/ exists x, p = Some x /\ x <= 0) -> dist_of_plx p = None.
Proof.
  intros [->|(x & -> & Hx)]; [reflexivity|]. cbn.
  destruct (Qlt_le_dec 0 x) as [Hpos|]; [lra|reflexivity].
Qed.

Lemma compute_absmag_some d m :
  is_Some (compute_absmag d m) -> is_Some d /\ is_Some m.
Proof. destruct d, m; cbn; intros [x Hx]; try discriminate; eauto. Qed.

Lemma normalized_row_of df s :
  s ∈ normalize_and_compute df ->
  exists r, r ∈ rows df /\ s = normalize_row (columns df) r /\ is_Some (vmag s).
Proof.
  unfold normalize_and_compute. rewrite list_elem_of_filter, list_elem_of_fmap.
  intros [Hc (r & -> & Hr)]. exists r. repeat split; [exact Hr|].
  unfold complete in Hc. apply andb_true_iff in Hc as [_ Hv].
  now apply bool_decide_eq_true in Hv.
Qed.

(** C5. In every record of the normalized catalogue, [dist_pc] is set only
    when [plx] is set and strictly positive, and then it is [1000 / plx];
    [absmag] is set only when [dist_pc] and [vmag] both are; so a record
    whose [plx] is missing or not positive has neither, while [temp_k]
    follows from [bv] alone and can be set in such a record. *)
Theorem derived_fields_dependency :
  (forall (df : table) (s : star),
     s ∈ normalize_and_compute df ->
     (forall d, dist_pc s = Some d ->
        exists p, plx s = Some p /\ 0 < p /\ d = 1000 / p) /\
     (is_Some (absmag s) -> is_Some (dist_pc s) /\ is_Some (vmag s)) /\
     ((plx s = None \/ exists p, plx s = Some p /\ p <= 0) ->
        dist_pc s = None /\ absmag s = None) /\
     temp_k s = bv_to_temp (bv s)) /\
  (exists (df : table) (s : star),
     s ∈ normalize_and_compute df /\
     plx s = None /\ dist_pc s = None /\ absmag s = None /\ is_Some (temp_k s)).
Proof.
  split.
  - intros df s Hs. apply normalized_row_of in Hs as (r & _ & -> & _). cbn.
    split; [apply dist_of_plx_some|].
    split; [apply compute_absmag_some|].
    split; [|reflexivity].
    intros Hp. rewrite (dist_of_plx_none _ Hp). now split.
  - exists star_without_parallax.
    exists (normalize_row (columns star_without_parallax)
              {[ "HIP" := CNum 7; "RAICRS" := CNum 10; "DEICRS" := CNum (-5);
                 "Vmag" := CNum 6; "B-V" := CNum 1 ]}).
    split; [|vm_compute; eauto].
    unfold normalize_and_compute. apply list_elem_of_filter. split.
    + vm_compute. reflexivity.
    + cbn. apply list_elem_of_here.
Qed.

(** *** The rows that are kept *)

(** X9. Every row of the normalized catalogue has its coordinates and its
    magnitude; its distance, when set, is positive; and its absolute
    magnitude is set exactly when its distance is, that is exactly when its
    parallax is set and positive. The catalogue keeps the order of the table
    and has at most as many rows. *)
Theorem catalogue_rows_are_complete (df : table) :
  Forall (fun s =>
    is_Some (ra s) /\ is_Some (dec s) /\ is_Some (vmag s) /\
    (forall d, dist_pc s = Some d -> 0 < d) /\
    (is_Some (absmag s) <-> is_Some (dist_pc s)) /\
    (is_Some (dist_pc s) <-> exists p, plx s = Some p /\ 0 < p))
    (normalize_and_compute df) /\
  sublist (normalize_and_compute df) (normalize_row (columns df) <$> rows df) /\
  (length (normalize_and_compute df) <= length (rows df))%nat.
Proof.
  split; [|split].
  - unfold normalize_and_compute. apply Forall_forall. intros s Hs.
    apply list_elem_of_filter in Hs as [Hc Hs].
    apply list_elem_of_fmap in Hs as (r & -> & _).
    unfold complete in Hc.
    apply andb_true_iff in Hc as [Hc Hv]. apply andb_true_iff in Hc as [Hr Hd].
    apply bool_decide_eq_true in Hr, Hd, Hv.
    split; [exact Hr|]. split; [exact Hd|]. split; [exact Hv|].
    cbn in Hv |- *. destruct Hv as [m Hm]. rewrite Hm.
    destruct (to_numeric (at_col r "Plx")) as [p|]; cbn.
    + destruct (Qlt_le_dec 0 p) as [Hp|Hp]; cbn.
      * split.
        { intros d [= <-]. apply Qlt_shift_div_l; lra. }
        assert (Hpos : 0 < 1000 / p) by (apply Qlt_shift_div_l; lra).
        destruct (Qlt_le_dec 0 (1000 / p)) as [_|Hle]; [|lra].
        split; [split; eauto|]. split; eauto.
      * split; [discriminate|]. split; [split; intros [? ?]; discriminate|].
        split; [intros [? ?]; discriminate|]. intros (x & [= <-] & Hx). lra.
    + split; [discriminate|]. split; [split; intros [? ?]; discriminate|].
      split; [intros [? ?]; discriminate|]. intros (x & ? & _). discriminate.
  - apply sublist_filter.
  - unfold normalize_and_compute.
    etransitivity; [apply length_filter|]. now rewrite length_fmap.
Qed.

(** *** Writing the catalogue, lines 87-95 *)

(** The value [write_ndjson] stores for a cell: [None] for a missing value.
    A table does not tell an [int] from a [float]; a number is carried as
    the number it is. *)
Definition number_value (x : option Q) : Json.json :=
  match x with
  | Some q => Json.JFloat (Fin q)
  | None => Json.JNull
  end.

Definition cell_value (c : cell) : Json.json :=
  match c with
  | CNum q => Json.JFloat (Fin q)
  | CStr s => Json.JStr s
  | CNA => Json.JNull
  end.

(** Lines 91-94: the object of a row, its keys in the order of the columns
    kept at lines 82-83. *)
Definition row_object (s : star) : Json.json :=
  Json.JObj
    [("hip", cell_value (hip s)); ("ra", number_value (ra s));
     ("dec", number_value (dec s)); ("dist_pc", number_value (dist_pc s));
     ("vmag", number_value (vmag s)); ("plx", number_value (plx s));
     ("bv", number_value (bv s));
     ("sp_type", match sp_type s with Some t => Json.JStr t | None => Json.JNull end);
     ("absmag", number_value (absmag s)); ("temp_k", number_value (temp_k s))].

(** [json.dumps(obj)]. *)
Variable json_dumps : Json.json -> string.

(** Line 95 writes, after each object, the text of the literal ["\\n"]: a
    backslash and the letter n. The text of the whole file: *)
Fixpoint write_ndjson (df : list star) : string :=
  match df with
  | [] => ""
  | s :: rest => (json_dumps (row_object s) +:+ "\n") +:+ write_ndjson rest
  end.

Lemma contains_char_append (c : ascii) (a b : string) :
  contains_char c (a +:+ b) = contains_char c a || contains_char c b.
Proof.
  induction a as [|x a IH]; [reflexivity|].
  rewrite sapp_cons. cbn [contains_char]. now rewrite IH, orb_assoc.
Qed.

(** X10. The file [write_ndjson] writes is not delimited by newlines: each
    record is followed by a backslash and the letter n, so when
    [json.dumps] emits no newline (it emits none without [indent]) the
    file holds no newline character at all, however many rows it has, and
    a file of at least one row ends in these two characters. *)
Theorem ndjson_file_has_no_newline (df : list star) :
  (forall v, contains_char "010" (json_dumps v) = false) ->
  contains_char "010" (write_ndjson df) = false /\
  (df <> [] -> exists body, write_ndjson df = body +:+ "\n") /\
  String.length (write_ndjson df)
  = sum_list ((fun s => String.length (json_dumps (row_object s)) + 2)%nat <$> df).
Proof.
  intros Hdumps. split; [|split].
  - induction df as [|s rest IH]; [reflexivity|]. cbn [write_ndjson].
    rewrite !contains_char_append, Hdumps, IH. reflexivity.
  - induction df as [|s rest IH]; [congruence|]. intros _. cbn [write_ndjson].
    destruct rest as [|s' rest'].
    + exists (json_dumps (row_object s)). cbn [write_ndjson]. now rewrite sapp_nil_r.
    + destruct IH as [body Hbody]; [discriminate|]. rewrite Hbody.
      exists ((json_dumps (row_object s) +:+ "\n") +:+ body).
      now rewrite !sapp_assoc.
  - induction df as [|s rest IH]; [reflexivity|]. cbn [write_ndjson fmap list_fmap sum_list sum_list_with].
    rewrite !sapp_length, IH. cbn. lia.
Qed.

End Normalize.
End Normalizer.

(** ** The Enricher ([scripts/enrich_with_simbad_names.py]) *)

Module Enricher.
Import PyNum PyStr Json.

Definition BATCH_SIZE : Z := 50.
Definition DELAY_S : Q := 1.
Definition RETRIES : nat := 3.
Definition RETRY_DELAY : Q := 3.

(** An entry of the names cache: [{"main_id": ..., "ids": [...]}]. *)
Record cache_entry : Type := {
  main_id : option string;
  ids : list string
}.

(** A row of the table the service answers with: [str] of its [MAIN_ID] and
    of its [IDS], [None] for a missing one. *)
Record simbad_row : Type := {
  MAIN_ID : option string;
  IDS : option string
}.

(** What [Simbad.query_objects] does: a table, [None], or an exception. *)
Inductive reply : Type :=
| Table (rows : list simbad_row)
| NoMatch
| Failure (e : exn).

(** What the run leaves outside: the requests sent so far, the delays slept
    (latest last), and the cache file once saved. *)
Record world : Type := {
  calls : nat;
  slept : list Q;
  cache_file : option (gmap string cache_entry)
}.

Definition sleep (d : Q) (w : world) : world :=
  {| calls := calls w; slept := slept w ++ [d]; cache_file := cache_file w |}.

Definition save_cache (cache : gmap string cache_entry) (w : world) : world :=
  {| calls := calls w; slept := slept w; cache_file := Some cache |}.

(** [f"HIP:{h}"] and [f"HIP {h}"]. *)
Definition cache_key (h : Z) : string := "HIP:" +:+ pretty h.
Definition query_name (h : Z) : string := "HIP " +:+ pretty h.

(** A text is true when it is neither [None] nor empty. *)
Definition truthy (s : option string) : bool :=
  match s with
  | Some (String _ _) => true
  | _ => false
  end.

(** [x.strip().upper().startswith("HIP")] *)
Definition looks_like_hip (x : string) : bool := startswith "HIP" (upper (strip x)).

(** Lines 201-207: the canonical name when it is true, else the first alias
    that does not look like a HIP identifier when that alias is true, else
    [None]. *)
Definition first_alias (aliases : list string) : option string :=
  head (filter (fun x => looks_like_hip x = false) aliases).

Definition pick_name (c : cache_entry) : option string :=
  if truthy (main_id c) then main_id c
  else
    let alt := first_alias (ids c) in
    if truthy alt then alt else None.

Definition name_value (name : option string) : json :=
  match name with
  | Some s => JStr s
  | None => JNull
  end.

Section Enrich.

(** [json.loads], [json.dumps(rec, ensure_ascii=False)], [int(s)] of a string
    ([None] when it raises), and the service: its reply to the [n]-th request
    of the run. *)
Variable json_loads : string -> option json.
Variable json_dumps : json -> string.
Variable int_of_str : string -> option Z.
Variable service : nat -> list string -> reply.

Definition query_objects (qnames : list string) (w : world) : reply * world :=
  (service (calls w) qnames,
   {| calls := S (calls w); slept := slept w; cache_file := cache_file w |}).

(** [int(v)] of a JSON value. *)
Definition py_int (v : json) : result Z :=
  match v with
  | JInt z => Ok z
  | JBool b => Ok (if b then 1%Z else 0%Z)
  | JFloat (Fin q) => Ok (py_trunc q)
  | JFloat NaN => Raise ValueError
  | JFloat _ => Raise OverflowError
  | JStr s => match int_of_str s with Some z => Ok z | None => Raise ValueError end
  | JNull | JArr _ | JObj _ => Raise TypeError
  end.

(** Lines 153-159 (and 51-54): the aliases of a row, split at bars when the
    text has one and at semicolons otherwise, stripped, the empty ones
    dropped. *)
Definition split_ids (ids_raw : option string) : list string :=
  match ids_raw with
  | None => []
  | Some s =>
      let sep := if contains_char "|" s then "|"%char else ";"%char in
      filter (fun t => t <> "") (strip <$> split_char sep s)
  end.

(** Lines 161-170 (and 57-66): the key of the first alias that reads
    [HIP <integer>]. *)
Definition hip_key_of_token (token : string) : option string :=
  let tok := remove_char " " token in
  if startswith "HIP" (upper tok)
  then cache_key <$> int_of_str (drop_chars 3 tok)
  else None.

Fixpoint find_hip_key (tokens : list string) : option string :=
  match tokens with
  | [] => None
  | token :: rest =>
      match hip_key_of_token token with
      | Some key => Some key
      | None => find_hip_key rest
      end
  end.

Definition entry_of_row (row : simbad_row) : cache_entry :=
  {| main_id := MAIN_ID row; ids := split_ids (IDS row) |}.

(** *** The helper with retries, lines 32-83 *)

(** Lines 46-75. *)
Definition rows_to_dict (rows : list simbad_row) : gmap string cache_entry :=
  foldl (fun out row =>
           <[default "HIP:UNKNOWN" (find_hip_key (split_ids (IDS row)))
             := entry_of_row row]> out)
        ∅ rows.

(** Lines 39-83, [remaining] attempts from [attempt] on. *)
Fixpoint retry_from (remaining attempt : nat) (qnames : list string) (w : world)
  : result (gmap string cache_entry) * world :=
  match remaining with
  | O => (Ok ∅, w)
  | S remaining' =>
      let (r, w1) := query_objects qnames w in
      match r with
      | NoMatch => (Ok ∅, w1)
      | Table rows => (Ok (rows_to_dict rows), w1)
      | Failure e =>
          if Nat.ltb attempt RETRIES
          then retry_from remaining' (S attempt) qnames (sleep RETRY_DELAY w1)
          else (Raise e, w1)
      end
  end.

Definition query_simbad_for_hips (hip_list : list Z) (w : world)
  : result (gmap string cache_entry) * world :=
  retry_from RETRIES 1 (query_name <$> hip_list) w.

(** *** The lookups of [main], lines 124-189 *)

(** Lines 147-182. *)
Definition store_row (batch : list Z) (cache : gmap string cache_entry)
    (row : simbad_row) : gmap string cache_entry :=
  let ids_list := split_ids (IDS row) in
  let hip_key :=
    match find_hip_key ids_list with
    | Some key => key
    | None => cache_key (default 0%Z (head batch))
    end in
  <[hip_key := {| main_id := MAIN_ID row; ids := ids_list |}]> cache.

(** Lines 144-146. *)
Definition store_no_match (batch : list Z) (cache : gmap string cache_entry)
  : gmap string cache_entry :=
  foldl (fun c h => <[cache_key h := {| main_id := None; ids := [] |}]> c) cache batch.

(** Lines 131-185: one batch. An exception of the request is caught at lines
    136-140 and the batch goes on as if nothing had matched. *)
Definition lookup_batch (delay : Q) (st : gmap string cache_entry * world)
    (batch : list Z) : gmap string cache_entry * world :=
  let (r, w1) := query_objects (query_name <$> batch) st.2 in
  let tbl := match r with
             | Table rows => Some rows
             | NoMatch | Failure _ => None
             end in
  let cache' := match tbl with
                | None => store_no_match batch st.1
                | Some rows => foldl (store_row batch) st.1 rows
                end in
  (cache', sleep delay w1).

(** [need[i:i+size]] for [i] in [range(0, len(need), size)]. *)
Fixpoint chunks (fuel size : nat) (l : list Z) : list (list Z) :=
  match fuel, l with
  | O, _ | _, [] => []
  | S fuel', _ => take size l :: chunks fuel' size (drop size l)
  end.

(** The batch size is the integer [--batch] holds: [range] with a negative
    step from 0 up to a length is empty, so a negative size gives no
    batch. *)
Definition batches (size : Z) (need : list Z) : list (list Z) :=
  if (0 <? size)%Z then chunks (length need) (Z.to_nat size) need else [].

(** Lines 124-189. A batch size of zero makes [range] raise. *)
Definition lookup_all (size : Z) (delay : Q) (need : list Z)
    (cache : gmap string cache_entry) (w : world)
  : result (gmap string cache_entry) * world :=
  match need with
  | [] => (Ok cache, w)
  | _ =>
      if (size =? 0)%Z then (Raise ValueError, w)
      else
        let st := foldl (lookup_batch delay) (cache, w) (batches size need) in
        (Ok st.1, save_cache st.1 st.2)
  end.

(** *** Reading the records, lines 108-125 *)

Fixpoint contains_sub (p s : string) : bool :=
  startswith p s
  || match s with
     | String _ rest => contains_sub p rest
     | EmptyString => false
     end.

Definition is_str (t : string) (v : json) : bool :=
  match v with
  | JStr s => String.eqb s t
  | _ => false
  end.

(** Lines 117-118 for one parsed line: the hip it adds to [hips], if any.
    A line that holds no object meets [in] and the subscript of its own
    type. *)
Definition hip_of (v : json) : result (option Z) :=
  match v with
  | JObj fields =>
      match assoc "hip" fields with
      | Some JNull | None => Ok None
      | Some h => do n <- py_int h; Ok (Some n)
      end
  | JArr items => if existsb (is_str "hip") items then Raise TypeError else Ok None
  | JStr s => if contains_sub "hip" s then Raise TypeError else Ok None
  | JNull | JBool _ | JInt _ | JFloat _ => Raise TypeError
  end.

(** Lines 112-118. *)
Fixpoint gather (lines : list string) : result (list json * list Z) :=
  match lines with
  | [] => Ok ([], [])
  | ln :: rest =>
      match json_loads ln with
      | None => Raise JSONDecodeError
      | Some obj =>
          do h <- hip_of obj;
          do acc <- gather rest;
          Ok (obj :: acc.1, from_option (fun n => [n]) [] h ++ acc.2)
      end
  end.

(** Lines 120 and 124. *)
Definition unique_hips (hips : list Z) : list Z := merge_sort Z.le (remove_dups hips).

Definition needed (cache : gmap string cache_entry) (hips : list Z) : list Z :=
  filter (fun h => cache !! cache_key h = None) (unique_hips hips).

(** *** Writing the names, lines 192-209 *)

(** Lines 194-208 for one record. *)
Definition enrich_record (cache : gmap string cache_entry) (rec : json) : result json :=
  match rec with
  | JObj fields =>
      let hip := dict_get "hip" fields in
      do name <-
        (if is_none hip then Ok None
         else
           do n <- py_int hip;
           Ok (match cache !! cache_key n with
               | Some c => pick_name c
               | None => None
               end));
      Ok (JObj (dict_set "name" (name_value name) fields))
  | _ => Raise AttributeError
  end.

Fixpoint enrich_records (cache : gmap string cache_entry) (records : list json)
  : result (list json) :=
  match records with
  | [] => Ok []
  | rec :: rest =>
      do rec' <- enrich_record cache rec;
      do rest' <- enrich_records cache rest;
      Ok (rec' :: rest')
  end.

(** Lines 105-213 of [main], for an input file that exists: from the cache
    read at the start and the non-blank lines of the input to the lines
    written to [--out]. *)
Definition main (size : Z) (delay : Q) (cache : gmap string cache_entry)
    (lines : list string) (w : world) : result (list string) * world :=
  match gather lines with
  | Raise e => (Raise e, w)
  | Ok (records, hips) =>
      match lookup_all size delay (needed cache hips) cache w with
      | (Raise e, w1) => (Raise e, w1)
      | (Ok cache', w1) =>
          (do out <- enrich_records cache' records; Ok (json_dumps <$> out), w1)
      end
  end.



(** A line the Enricher reads to the end: an object whose [hip], when it
    has one, converts to an integer. *)
Definition readable (ln : string) : bool :=
  match json_loads ln with
  | Some (JObj fields) =>
      match assoc "hip" fields with
      | Some JNull | None => true
      | Some h => is_ok (py_int h)
      end
  | _ => false
  end.

(** *** The helper retries, [main] does not *)











(** *** The name of a record *)

Lemma first_alias_spec aliases a :
  first_alias aliases = Some a <->
  exists before after,
    aliases = before ++ a :: after /\
    Forall (fun x => looks_like_hip x = true) before /\ looks_like_hip a = false.
Proof.
  unfold first_alias. induction aliases as [|x aliases IH].
  - split; [discriminate|]. intros ([|? ?] & ? & ? & _); discriminate.
  - destruct (looks_like_hip x) eqn:Hx.
    + rewrite filter_cons_False by (rewrite Hx; discriminate). rewrite IH. split.
      * intros (before & after & -> & Hb & Ha).
        exists (x :: before), after. repeat split; [|exact Ha]. now constructor.
      * intros ([|y before] & after & Heq & Hb & Ha); injection Heq as -> ->.
        -- congruence.
        -- pose proof (Forall_inv_tail Hb) as Hb'.
           exists before, after. repeat split; [exact Hb'|exact Ha].
    + rewrite filter_cons_True by exact Hx. cbn [head]. split.
      * intros [= <-]. exists [], aliases. repeat split; [constructor|exact Hx].
      * intros ([|y before] & after & Heq & Hb & Ha); injection Heq as -> ->.
        -- reflexivity.
        -- pose proof (Forall_inv Hb) as Hy. cbv beta in Hy. congruence.
Qed.

Lemma truthy_spec s : truthy s = true <-> exists m, s = Some m /\ m <> "".
Proof.
  destruct s as [[|c m]|]; cbn; split; try discriminate.
  - intros (m & [= <-] & Hm). congruence.
  - intros _. eauto.
  - intros (m' & [= <-] & _). reflexivity.
  - intros (m & ? & _). discriminate.
Qed.

Lemma truthy_false s : truthy s = false <-> s = None \/ s = Some "".
Proof.
  destruct s as [[|c m]|]; cbn; split; try discriminate; auto.
  - intros [?|?]; discriminate.
Qed.

(** C8, amended. For a record whose hip has a cache entry, the name is the
    cached canonical name when that is a non-empty text; otherwise (the
    canonical name is null or empty) it is the first cached alias that,
    stripped and in upper case, does not start with HIP, provided that alias
    is non-empty; otherwise it is null. The record is enriched without an
    error in each case. *)
Theorem enriched_name_from_cache (cache : gmap string cache_entry)
    (fields : list (string * json)) (n : Z) (c : cache_entry) :
  py_int (dict_get "hip" fields) = Ok n ->
  cache !! cache_key n = Some c ->
  exists name : option string,
    enrich_record cache (JObj fields)
    = Ok (JObj (dict_set "name" (name_value name) fields)) /\
    (forall m, main_id c = Some m -> m <> "" -> name = Some m) /\
    (main_id c = None \/ main_id c = Some "" ->
     forall before a after,
       ids c = before ++ a :: after ->
       Forall (fun x => looks_like_hip x = true) before ->
       looks_like_hip a = false ->
       name = if decide (a = "") then None else Some a) /\
    (main_id c = None \/ main_id c = Some "" ->
     Forall (fun x => looks_like_hip x = true) (ids c) -> name = None).
Proof.
  intros Hint Hc. exists (pick_name c). split.
  { unfold enrich_record. rewrite Hint.
    destruct (is_none (dict_get "hip" fields)) eqn:Hn.
    { destruct (dict_get "hip" fields); discriminate. }
    cbn. now rewrite Hc. }
  unfold pick_name. split.
  { intros m Hm Hne. assert (Ht : truthy (main_id c) = true).
    { apply truthy_spec. eauto. }
    now rewrite Ht. }
  split.
  - intros Hm before a after Hids Hb Ha.
    apply truthy_false in Hm. rewrite Hm.
    assert (Hf : first_alias (ids c) = Some a).
    { apply first_alias_spec. eauto. }
    rewrite Hf. destruct a; reflexivity.
  - intros Hm Hall. apply truthy_false in Hm. rewrite Hm.
    destruct (first_alias (ids c)) as [a|] eqn:Hf; [|reflexivity].
    apply first_alias_spec in Hf as (before & after & Hids & _ & Ha).
    rewrite Hids in Hall. apply Forall_app in Hall as [_ Hall].
    inversion Hall; congruence.
Qed.

(** *** The output stream *)





Lemma gather_readable lines :
  Forall (fun ln => readable ln = true) lines ->
  exists records hips,
    gather lines = Ok (records, hips) /\
    Forall (fun rec => forall cache, is_ok (enrich_record cache rec) = true) records.
Proof.
  induction 1 as [|ln rest Hr _ (records & hips & Hg & Hall)].
  - exists [], []. split; [reflexivity|constructor].
  - unfold readable in Hr. cbn. rewrite Hg.
    destruct (json_loads ln) as [[| | | | | |fields]|]; try discriminate.
    assert (He : forall cache, is_ok (enrich_record cache (JObj fields)) = true).
    { intros cache. unfold enrich_record, dict_get.
      destruct (assoc "hip" fields) as [h|]; [|reflexivity]. cbn.
      destruct (is_none h) eqn:Hn; [reflexivity|].
      destruct h; try discriminate; destruct (py_int _); try discriminate; reflexivity. }
    cbn. destruct (assoc "hip" fields) as [h|]; cbn.
    + destruct h; try (destruct (py_int _) as [n|]; [|discriminate]); cbn;
        eexists _, _; (split; [reflexivity|constructor; assumption]).
    + eexists _, _. split; [reflexivity|constructor; assumption].
Qed.



(** *** The helper's answer *)

Lemma retry_from_first_answer k : forall remaining attempt qnames w,
  k < remaining -> attempt + k <= RETRIES ->
  (forall i, i < k -> exists e, service (calls w + i) qnames = Failure e) ->
  (forall e, service (calls w + k) qnames <> Failure e) ->
  retry_from remaining attempt qnames w
  = (Ok (match service (calls w + k) qnames with
         | Table rows => rows_to_dict rows
         | NoMatch | Failure _ => ∅
         end),
     {| calls := calls w + S k;
        slept := slept w ++ replicate k RETRY_DELAY;
        cache_file := cache_file w |}).
Proof.
  induction k as [|k IH]; intros remaining attempt qnames w Hk Ha Hfail Hans;
    (destruct remaining as [|remaining]; [lia|]); cbn -[Nat.ltb RETRIES].
  - rewrite Nat.add_0_r in Hans |- *. rewrite Nat.add_1_r, app_nil_r.
    destruct (service (calls w) qnames) as [rows| |e]; try reflexivity.
    now destruct (Hans e).
  - destruct (Hfail 0) as [e He]; [lia|]. rewrite Nat.add_0_r in He. rewrite He.
    assert (Hlt : (attempt <? RETRIES) = true) by (apply Nat.ltb_lt; lia).
    rewrite Hlt.
    rewrite (IH remaining (S attempt) qnames); cbn [calls slept cache_file sleep].
    + replace (S (calls w) + k) with (calls w + S k) by lia.
      replace (S (calls w) + S k) with (calls w + S (S k)) by lia.
      now rewrite <- app_assoc.
    + lia.
    + lia.
    + intros i Hi. destruct (Hfail (S i)) as [e' He']; [lia|].
      exists e'. cbn [calls sleep].
      now replace (S (calls w) + i) with (calls w + S i) by lia.
    + intros e'. specialize (Hans e'). cbn [calls sleep].
      now replace (S (calls w) + k) with (calls w + S k) by lia.
Qed.

(** X11. The helper [query_simbad_for_hips] returns the first answer it
    gets within its three attempts: when the first [k] requests fail
    ([k] below 3) and the next one does not, it has sent [k + 1] requests,
    slept [RETRY_DELAY] [k] times, and returns the table of that request as
    a dictionary, empty when the service matched nothing. *)
Theorem helper_returns_first_answer (hip_list : list Z) (w : world) (k : nat) :
  k < RETRIES ->
  (forall i, i < k ->
     exists e, service (calls w + i) (query_name <$> hip_list) = Failure e) ->
  (forall e, service (calls w + k) (query_name <$> hip_list) <> Failure e) ->
  query_simbad_for_hips hip_list w
  = (Ok (match service (calls w + k) (query_name <$> hip_list) with
         | Table rows => rows_to_dict rows
         | NoMatch | Failure _ => ∅
         end),
     {| calls := calls w + S k;
        slept := slept w ++ replicate k RETRY_DELAY;
        cache_file := cache_file w |}).
Proof.
  intros Hk Hfail Hans. unfold query_simbad_for_hips.
  apply retry_from_first_answer; assumption.
Qed.

(** *** The plan of the lookups *)

Lemma chunks_concat fuel : forall size (l : list Z),
  size <> 0 -> length l <= fuel -> concat (chunks fuel size l) = l.
Proof.
  induction fuel as [|fuel IH]; intros size l Hsize Hlen.
  - destruct l; [reflexivity|cbn in Hlen; lia].
  - destruct l as [|h l]; [reflexivity|].
    cbn [chunks concat]. rewrite IH.
    + apply take_drop.
    + exact Hsize.
    + rewrite length_drop. cbn in Hlen |- *. lia.
Qed.

Lemma chunks_bounds fuel : forall size (l : list Z),
  size <> 0 ->
  Forall (fun b => b <> [] /\ length b <= size) (chunks fuel size l).
Proof.
  induction fuel as [|fuel IH]; intros size l Hsize; [constructor|].
  destruct l as [|h l]; [constructor|]. cbn [chunks]. constructor.
  - destruct size as [|size]; [congruence|]. split; [discriminate|].
    rewrite length_take. lia.
  - now apply IH.
Qed.

Lemma sorted_filter {A : Type} (R : relation A) (P : A -> Prop)
    `{forall x, Decision (P x)} (l : list A) :
  StronglySorted R l -> StronglySorted R (filter P l).
Proof.
  induction 1 as [|x l Hs IH Hall]; [constructor|].
  destruct (decide (P x)).
  - rewrite filter_cons_True by assumption. constructor; [exact IH|].
    apply Forall_forall. intros y Hy. apply list_elem_of_filter in Hy as [_ Hy].
    rewrite Forall_forall in Hall. now apply Hall.
  - now rewrite filter_cons_False by assumption.
Qed.

Lemma sorted_strict (l : list Z) :
  StronglySorted Z.le l -> NoDup l -> StronglySorted Z.lt l.
Proof.
  induction 1 as [|x l Hs IH Hall]; intros Hnd; [constructor|].
  apply NoDup_cons in Hnd as [Hx Hnd]. constructor; [now apply IH|].
  apply Forall_forall. intros y Hy. rewrite Forall_forall in Hall.
  specialize (Hall y Hy). assert (x <> y) by (intros ->; contradiction). lia.
Qed.

Lemma unique_hips_sorted (hips : list Z) : StronglySorted Z.lt (unique_hips hips).
Proof.
  unfold unique_hips. apply sorted_strict.
  - apply (StronglySorted_merge_sort Z.le).
  - rewrite merge_sort_Permutation. apply NoDup_remove_dups.
Qed.

Lemma elem_of_unique_hips (hips : list Z) h : h ∈ unique_hips hips <-> h ∈ hips.
Proof.
  unfold unique_hips. now rewrite merge_sort_Permutation, elem_of_remove_dups.
Qed.

Lemma elem_of_needed cache hips h :
  h ∈ needed cache hips <-> h ∈ hips /\ cache !! cache_key h = None.
Proof.
  unfold needed. rewrite list_elem_of_filter, elem_of_unique_hips. tauto.
Qed.

Lemma needed_nil cache hips :
  (forall h, h ∈ hips -> is_Some (cache !! cache_key h)) -> needed cache hips = [].
Proof.
  intros Hall. destruct (needed cache hips) as [|h rest] eqn:Hn; [reflexivity|].
  assert (Hh : h ∈ needed cache hips) by (rewrite Hn; apply list_elem_of_here).
  apply elem_of_needed in Hh as [Hh Hnone].
  destruct (Hall h Hh) as [x Hx]. congruence.
Qed.

(** X12. The lookups ask for each hip of the input that has no cache entry:
    the hips to look up are the uncached hips of the input in strictly
    ascending order. A positive batch size cuts this list into consecutive
    pieces, none empty and none longer than the batch size, so that each of
    these hips is asked for once; a negative batch size gives no batch at
    all, so that none of them is asked for. *)
Theorem lookup_plan (size : Z) (cache : gmap string cache_entry) (hips : list Z) :
  ((0 < size)%Z ->
   concat (batches size (needed cache hips)) = needed cache hips /\
   Forall (fun b => b <> [] /\ (Z.of_nat (length b) <= size)%Z)
          (batches size (needed cache hips))) /\
  ((size < 0)%Z -> batches size (needed cache hips) = []) /\
  StronglySorted Z.lt (needed cache hips) /\
  (forall h, h ∈ needed cache hips <-> h ∈ hips /\ cache !! cache_key h = None).
Proof.
  split; [|split; [|split]].
  - intros Hsize. unfold batches.
    destruct (Z.ltb_spec 0 size) as [_|]; [|lia]. split.
    + apply chunks_concat; lia.
    + eapply Forall_impl; [apply (chunks_bounds _ (Z.to_nat size)); lia|].
      intros b [Hne Hlen]. split; [exact Hne|lia].
  - intros Hsize. unfold batches. destruct (Z.ltb_spec 0 size); [lia|reflexivity].
  - unfold needed. apply sorted_filter, unique_hips_sorted.
  - apply elem_of_needed.
Qed.

(** X13. When every hip of the input has a cache entry the Enricher sends
    no request, sleeps no delay and leaves the cache file alone, whatever
    the batch size, and names the records from the cache it was given. *)
Theorem cached_hips_send_no_request (size : Z) (delay : Q)
    (cache : gmap string cache_entry) (lines : list string) (w : world)
    (records : list json) (hips : list Z) :
  gather lines = Ok (records, hips) ->
  (forall h, h ∈ hips -> is_Some (cache !! cache_key h)) ->
  main size delay cache lines w
  = (do out <- enrich_records cache records; Ok (json_dumps <$> out), w).
Proof.
  intros Hg Hall. unfold main. rewrite Hg, (needed_nil _ _ Hall). reflexivity.
Qed.

(** *** Unanswered lookups *)





(** *** Names *)

(** X15. The name the Enricher picks is never empty and never an alias that
    reads as a HIP identifier: it is the cached canonical name, or, when
    that is null or empty, one of the cached aliases that does not start
    with HIP once stripped and in upper case. *)
Theorem chosen_name_is_no_hip_alias (c : cache_entry) (a : string) :
  pick_name c = Some a ->
  a <> "" /\
  (main_id c = Some a \/
   (main_id c = None \/ main_id c = Some "") /\ a ∈ ids c /\ looks_like_hip a = false).
Proof.
  unfold pick_name. destruct (truthy (main_id c)) eqn:Hm.
  - intros Ha. apply truthy_spec in Hm as (m & Hm & Hne).
    rewrite Hm in Ha. injection Ha as <-. split; [exact Hne|now left].
  - destruct (truthy (first_alias (ids c))) eqn:Hf; [|discriminate].
    intros Ha. apply truthy_spec in Hf as (m & Hf & Hne).
    rewrite Hf in Ha. injection Ha as <-. split; [exact Hne|]. right.
    apply truthy_false in Hm. split; [exact Hm|].
    apply first_alias_spec in Hf as (before & after & Hids & _ & Hl).
    split; [|exact Hl]. rewrite Hids. apply elem_of_app. right.
    apply list_elem_of_here.
Qed.

Lemma dict_set_twice k v v' fields :
  dict_set k v (dict_set k v' fields) = dict_set k v fields.
Proof.
  induction fields as [|[k0 v0] rest IH]; cbn.
  - now rewrite String.eqb_refl.
  - destruct (String.eqb k0 k) eqn:E; cbn; rewrite E; [reflexivity|now rewrite IH].
Qed.

Lemma enrich_record_again cache rec rec' :
  enrich_record cache rec = Ok rec' -> enrich_record cache rec' = Ok rec'.
Proof.
  destruct rec as [| | | | | |fields]; try discriminate. cbn.
  assert (Hhip : dict_get "hip" (dict_set "name" (name_value None) fields)
                 = dict_get "hip" fields
                 /\ forall v, dict_get "hip" (dict_set "name" v fields)
                              = dict_get "hip" fields).
  { assert (H : forall v, dict_get "hip" (dict_set "name" v fields)
                          = dict_get "hip" fields).
    { intros v. unfold dict_get. now rewrite assoc_dict_set_ne by discriminate. }
    split; [apply H|exact H]. }
  destruct Hhip as [_ Hhip].
  destruct (if is_none (dict_get "hip" fields) then _ else _) as [name|] eqn:Hname;
    cbn; [|discriminate].
  intros [= <-]. cbn. rewrite Hhip, Hname. cbn. now rewrite dict_set_twice.
Qed.

(** X16. Enriching is idempotent: the records the Enricher has written,
    enriched again from the same cache, come out as they are. *)
Theorem enriching_twice_changes_nothing (cache : gmap string cache_entry)
    (records out : list json) :
  enrich_records cache records = Ok out -> enrich_records cache out = Ok out.
Proof.
  revert out. induction records as [|rec rest IH]; intros out H; cbn in H.
  - now injection H as <-.
  - destruct (enrich_record cache rec) as [rec'|] eqn:Hr; cbn in H; [|discriminate].
    destruct (enrich_records cache rest) as [rest'|] eqn:Hrest; cbn in H;
      [|discriminate].
    injection H as <-. cbn.
    rewrite (enrich_record_again _ _ _ Hr). cbn. now rewrite (IH rest' eq_refl).
Qed.

(** *** A line the Enricher cannot read *)

Lemma gather_app l1 : forall l2,
  gather (l1 ++ l2)
  = do a <- gather l1; do b <- gather l2; Ok (a.1 ++ b.1, a.2 ++ b.2).
Proof.
  induction l1 as [|ln l1 IH]; intros l2; cbn.
  - destruct (gather l2) as [[recs hs]|]; reflexivity.
  - destruct (json_loads ln) as [obj|]; [|reflexivity].
    destruct (hip_of obj) as [h|]; cbn; [|reflexivity].
    rewrite IH. destruct (gather l1) as [[r1 h1]|]; cbn; [|reflexivity].
    destruct (gather l2) as [[r2 h2]|]; cbn; [|reflexivity].
    now rewrite <- app_assoc.
Qed.

(** X17. A line that [json.loads] rejects stops the Enricher before it
    does anything: when the lines before it are readable, [main] raises
    the decoding error without a request sent, a delay slept, the cache
    saved or a record written. A hip that [int] rejects does the same with
    the error of [int]. *)
Theorem enricher_stops_at_unreadable_line (size : Z) (delay : Q)
    (cache : gmap string cache_entry) (before after : list string) (ln : string)
    (w : world) :
  Forall (fun l => readable l = true) before ->
  (json_loads ln = None ->
   main size delay cache (before ++ ln :: after) w = (Raise JSONDecodeError, w)) /\
  (forall fields h e,
     json_loads ln = Some (JObj fields) -> assoc "hip" fields = Some h ->
     h <> JNull -> py_int h = Raise e ->
     main size delay cache (before ++ ln :: after) w = (Raise e, w)).
Proof.
  intros Hb. destruct (gather_readable before Hb) as (records & hips & Hg & _).
  split.
  - intros Hln. unfold main. rewrite gather_app, Hg. cbn. now rewrite Hln.
  - intros fields h e Hln Hh Hnull He. unfold main.
    assert (Hhip : hip_of (JObj fields) = Raise e).
    { unfold hip_of. rewrite Hh.
      destruct h; try congruence; rewrite He; reflexivity. }
    rewrite gather_app, Hg. cbn [rbind gather]. now rewrite Hln, Hhip.
Qed.

(** X18. The aliases read from a row are the pieces of its [IDS] text
    between bars, or between semicolons when the text has no bar, each
    stripped, the empty ones left out: an alias is not empty and has no
    whitespace at either end, and a row without [IDS] has no alias. *)
Theorem aliases_are_trimmed_pieces (ids_raw : option string) :
  Forall (fun t => t <> "" /\ lstrip t = t /\ rstrip t = t) (split_ids ids_raw) /\
  (forall s t,
     ids_raw = Some s -> t ∈ split_ids ids_raw ->
     exists piece,
       piece ∈ split_char (if contains_char "|" s then "|" else ";")%char s /\
       t = strip piece) /\
  (ids_raw = None -> split_ids ids_raw = []).
Proof.
  split; [|split].
  - destruct ids_raw as [s|]; [|constructor]. cbn.
    apply Forall_forall. intros t Ht.
    apply list_elem_of_filter in Ht as [Hne Ht].
    apply list_elem_of_fmap in Ht as (piece & -> & _).
    split; [exact Hne|apply strip_fixed].
  - intros s t -> Ht. cbn in Ht.
    apply list_elem_of_filter in Ht as [_ Ht].
    apply list_elem_of_fmap in Ht as (piece & -> & Hp). now exists piece.
  - now intros ->.
Qed.

(** *** The files written, lines 212-221 *)

(** ["\n".join(out_lines) + "\n"], the text of a file written. *)
Definition out_text (out_lines : list string) : string :=
  join Writer.newline out_lines +:+ Writer.newline.

(** [l[:n]] for an integer [n]: a negative [n] counts from the end. *)
Definition py_take {A : Type} (n : Z) (l : list A) : list A :=
  if (n <? 0)%Z then take (length l - Z.to_nat (- n)) l else take (Z.to_nat n) l.

(** Lines 219-220: [out_lines[:min(args.sample_size, len(out_lines))]]. *)
Definition sample_lines (sample_size : Z) (out_lines : list string) : list string :=
  py_take (Z.min sample_size (Z.of_nat (length out_lines))) out_lines.

Lemma out_text_app (a b : list string) :
  a <> [] -> b <> [] -> out_text (a ++ b) = out_text a +:+ out_text b.
Proof.
  intros Ha Hb. unfold out_text. rewrite join_app by assumption.
  now rewrite !sapp_assoc.
Qed.

(** X23. The sample file (lines 217-221) is the beginning of the output
    file: its lines are the first lines of the output, and when it has a
    line its text is a prefix of the text of the output. A sample size of
    zero or more gives that many lines, or all of them when there are
    fewer; a negative sample size does not give an empty sample but drops
    that many lines from the end of the output. *)
Theorem sample_is_the_start_of_the_output (sample_size : Z) (out_lines : list string) :
  (exists rest,
     out_lines = sample_lines sample_size out_lines ++ rest /\
     (sample_lines sample_size out_lines <> [] ->
      out_text out_lines
      = out_text (sample_lines sample_size out_lines)
        +:+ match rest with [] => "" | _ :: _ => out_text rest end)) /\
  ((0 <= sample_size)%Z ->
   length (sample_lines sample_size out_lines)
   = Nat.min (Z.to_nat sample_size) (length out_lines)) /\
  ((sample_size < 0)%Z ->
   sample_lines sample_size out_lines
   = take (length out_lines - Z.to_nat (- sample_size)) out_lines).
Proof.
  assert (Htake : exists k, sample_lines sample_size out_lines = take k out_lines).
  { unfold sample_lines, py_take. destruct (_ <? 0)%Z; eexists; reflexivity. }
  split; [|split].
  - destruct Htake as [k Hk]. rewrite Hk. exists (drop k out_lines).
    split; [now rewrite take_drop|]. intros Hne.
    destruct (drop k out_lines) as [|d rest] eqn:Hd.
    + rewrite sapp_nil_r. f_equal.
      rewrite <- (take_drop k out_lines) at 1. rewrite Hd. apply app_nil_r.
    + rewrite <- out_text_app by (assumption || discriminate).
      now rewrite <- Hd, take_drop.
  - intros Hpos. unfold sample_lines, py_take.
    destruct (Z.ltb_spec (Z.min sample_size (Z.of_nat (length out_lines))) 0); [lia|].
    rewrite length_take. lia.
  - intros Hneg. unfold sample_lines, py_take.
    replace (Z.min sample_size (Z.of_nat (length out_lines))) with sample_size by lia.
    destruct (Z.ltb_spec sample_size 0); [reflexivity|lia].
Qed.

End Enrich.
End Enricher.

(** ** The Synthesizer ([scripts/make_10k_after_hip50.py]) *)

Module Synthesizer.
Import PyNum.
Local Open Scope Q_scope.

Definition NUM_NEW : nat := 10000.
Definition START_AFTER_HIP : Z := 50.

(** A record of the catalogue with the fields the script reads or writes,
    [None] for a field that is null or absent. The hip of an input record is
    the number found in the file; the script takes [int] of it. *)
Record star : Type := {
  hip : option Q;
  ra : option Q;
  dec : option Q;
  dist_pc : option Q;
  vmag : option Q;
  plx : option Q;
  bv : option Q;
  absmag : option Q;
  temp_k : option Q
}.

(** Lines 146-153 and 166: the records by [int(hip)] in a dictionary, a later
    record of the same hip taking the place of the earlier one. *)
Fixpoint by_hip_set (h : Z) (r : star) (d : list (Z * star)) : list (Z * star) :=
  match d with
  | [] => [(h, r)]
  | (h', r') :: rest =>
      if Z.eqb h' h then (h', r) :: rest else (h', r') :: by_hip_set h r rest
  end.

Definition existing_by_hip (base : list star) : list (Z * star) :=
  foldl (fun d r =>
           match hip r with
           | None => d
           | Some q => by_hip_set (py_trunc q) r d
           end)
        [] base.

Definition base_hips (base : list star) : gset Z :=
  list_to_set (omap (fun r => py_trunc <$> hip r) base).


Section Synthesize.

(** The state of the two random generators, and the draws the script makes:
    [np.random.uniform(a, b)], [np.random.normal(mu, sigma)] and the position
    [random.choice] picks in a list of [n] elements. *)
Variable rng : Type.
Variable uniform : Q -> Q -> rng -> Q * rng.
Variable normal : Q -> Q -> rng -> Q * rng.
Variable choice : nat -> rng -> nat * rng.

(** [10 ** x] and [log10(x)]. *)
Variable pow10 : Q -> Q.
Variable log10 : Q -> Q.

(** Lines 38-50. *)
Definition ballesteros_temp_from_bv (b : option Q) : option Q :=
  match b with
  | None => None
  | Some b =>
      let d1 := 0.92 * b + 1.7 in
      let d2 := 0.92 * b + 0.62 in
      if Qeq_bool d1 0 || Qeq_bool d2 0 then None
      else Some (4600 * (1 / d1 + 1 / d2))
  end.

(** Lines 53-131. *)
Definition make_new_star_from_template (template : star) (new_hip : Z) (g : rng)
  : star * rng :=
  let (ra', g1) :=
    match ra template with
    | None => uniform 0 360 g
    | Some tem_ra => let (n, g') := normal 0 5 g in (py_mod (tem_ra + n) 360, g')
    end in
  let (dec', g2) :=
    match dec template with
    | None => uniform (-80) 80 g1
    | Some tem_dec =>
        let (n, g') := normal 0 3 g1 in (py_max (-90) (py_min 90 (tem_dec + n)), g')
    end in
  let (dist', g3) :=
    match dist_pc template with
    | Some tem_dist =>
        if Qlt_le_dec 0 tem_dist
        then let (n, g') := normal 0 0.25 g2 in (py_max 1 (tem_dist * pow10 n), g')
        else let (u, g') := uniform 0 3.7 g2 in (pow10 u, g')
    | None => let (u, g') := uniform 0 3.7 g2 in (pow10 u, g')
    end in
  let plx' := if Qlt_le_dec 0 dist' then Some (1000 / dist') else None in
  let (vmag', g4) :=
    match vmag template with
    | Some tem_vmag => let (n, g') := normal 0 0.7 g3 in (py_max (-2) (tem_vmag + n), g')
    | None => let (n, g') := normal 8 2.5 g3 in (py_max (-2) (py_min 18 n), g')
    end in
  let (bv0, g5) :=
    match bv template with
    | Some tem_bv => let (n, g') := normal 0 0.15 g4 in (tem_bv + n, g')
    | None => normal 0.65 0.5 g4
    end in
  let bv' := py_max (-0.5) (py_min 2 bv0) in
  let absmag' :=
    if Qlt_le_dec 0 dist' then Some (vmag' - 5 * (log10 dist' - 1)) else None in
  ({| hip := Some (inject_Z new_hip);
      ra := Some ra';
      dec := Some dec';
      dist_pc := Some dist';
      vmag := Some vmag';
      plx := plx';
      bv := Some bv';
      absmag := absmag';
      temp_k := ballesteros_temp_from_bv (Some bv') |},
   g5).

(** The variables of the loop of lines 157-186. *)
Record loop_state : Type := {
  created : nat;
  curr_candidate : Z;
  existing_hips : gset Z;
  new_records : list star;
  gen : rng
}.

(** Lines 175-186: one iteration. *)
Definition iteration (templates : list star) (tpl0 : star) (st : loop_state)
  : loop_state :=
  let hip_candidate := curr_candidate st in
  if decide (hip_candidate ∈ existing_hips st)
  then {| created := created st;
          curr_candidate := (hip_candidate + 1)%Z;
          existing_hips := existing_hips st;
          new_records := new_records st;
          gen := gen st |}
  else
    let (i, g1) := choice (length templates) (gen st) in
    let tpl := default tpl0 (templates !! i) in
    let (new_rec, g2) := make_new_star_from_template tpl hip_candidate g1 in
    {| created := S (created st);
       curr_candidate := (hip_candidate + 1)%Z;
       existing_hips := {[hip_candidate]} ∪ existing_hips st;
       new_records := new_records st ++ [new_rec];
       gen := g2 |}.

(** Line 174: [while created < num_new and iter_count < max_iterations], with
    [budget] the iterations left. *)
Fixpoint loop (budget num_new : nat) (templates : list star) (tpl0 : star)
    (st : loop_state) : loop_state :=
  match budget with
  | O => st
  | S budget' =>
      if Nat.ltb (created st) num_new
      then loop budget' num_new templates tpl0 (iteration templates tpl0 st)
      else st
  end.

(** Lines 145-186 of [main]: the new records, none when no input record has
    a hip (line 167). *)
Definition synthesize (num_new : nat) (base : list star) (g : rng) : list star :=
  match (existing_by_hip base).*2 with
  | [] => []
  | (tpl0 :: _) as templates =>
      new_records
        (loop (num_new * 5) num_new templates tpl0
           {| created := 0;
              curr_candidate := (START_AFTER_HIP + 1)%Z;
              existing_hips := base_hips base;
              new_records := [];
              gen := g |})
  end.

Definition main (base : list star) (g : rng) : list star := synthesize NUM_NEW base g.

(** *** The fields of a new record *)

(** What lines 76-129 make of a distance, a magnitude and a colour. *)
Definition derived (new_hip : Z) (r : star) : Prop :=
  exists d v b,
    hip r = Some (inject_Z new_hip) /\
    dist_pc r = Some d /\ vmag r = Some v /\ bv r = Some b /\
    plx r = (if Qlt_le_dec 0 d then Some (1000 / d) else None) /\
    absmag r = (if Qlt_le_dec 0 d then Some (v - 5 * (log10 d - 1)) else None) /\
    temp_k r = ballesteros_temp_from_bv (Some b) /\
    (-0.5 <= b /\ b <= 2) /\
    ((forall x, 0 < pow10 x) -> 0 < d).

(** The invariant of the loop: the hips of the input are taken, the
    candidate is above the threshold, and the new records carry hips that
    increase, lie between the threshold and the candidate, and are none of
    the input. *)
Definition fresh_state (base : list star) (st : loop_state) : Prop :=
  base_hips base ⊆ existing_hips st /\
  (START_AFTER_HIP < curr_candidate st)%Z /\
  Forall (fun r => exists h, derived h r /\
                     (START_AFTER_HIP < h < curr_candidate st)%Z /\
                     h ∉ base_hips base)
         (new_records st) /\
  StronglySorted (fun r r' => exists h h', derived h r /\ derived h' r' /\ (h < h')%Z)
                 (new_records st).

Lemma py_clamp_range lo hi x : lo <= hi -> lo <= py_max lo (py_min hi x) <= hi.
Proof.
  intros H. unfold py_max, py_min.
  destruct (Qlt_le_dec x hi); destruct (Qlt_le_dec lo _); split; lra.
Qed.

Lemma make_new_star_derived template new_hip g :
  derived new_hip (make_new_star_from_template template new_hip g).1.
Proof.
  unfold make_new_star_from_template, derived.
  destruct (match ra template with Some _ => _ | None => _ end) as [ra' g1].
  destruct (match dec template with Some _ => _ | None => _ end) as [dec' g2].
  destruct (match dist_pc template with Some _ => _ | None => _ end) as [dist' g3] eqn:Hdist.
  destruct (match vmag template with Some _ => _ | None => _ end) as [vmag' g4].
  destruct (match bv template with Some _ => _ | None => _ end) as [bv0 g5].
  cbn [fst hip dist_pc vmag bv plx absmag temp_k].
  exists dist', vmag', (py_max (-0.5) (py_min 2 bv0)).
  repeat (split; [reflexivity|]).
  split; [apply py_clamp_range; lra|].
  intros Hpow.
  destruct (dist_pc template) as [tem_dist|].
  - destruct (Qlt_le_dec 0 tem_dist).
    + destruct (normal 0 0.25 g2) as [n g']. injection Hdist as <- _.
      pose proof (py_max_lb_l 1 (tem_dist * pow10 n)). lra.
    + destruct (uniform 0 3.7 g2) as [u g']. injection Hdist as <- _. apply Hpow.
  - destruct (uniform 0 3.7 g2) as [u g']. injection Hdist as <- _. apply Hpow.
Qed.

Lemma ballesteros_in_range b :
  -0.5 <= b -> b <= 2 ->
  ballesteros_temp_from_bv (Some b)
  = Some (4600 * (1 / (0.92 * b + 1.7) + 1 / (0.92 * b + 0.62))).
Proof.
  intros Hlo Hhi. unfold ballesteros_temp_from_bv.
  assert (H1 : Qeq_bool (0.92 * b + 1.7) 0 = false).
  { apply not_true_is_false. rewrite Qeq_bool_iff. lra. }
  assert (H2 : Qeq_bool (0.92 * b + 0.62) 0 = false).
  { apply not_true_is_false. rewrite Qeq_bool_iff. lra. }
  now rewrite H1, H2.
Qed.

Lemma py_trunc_inject_Z (z : Z) (q : Q) : inject_Z z == q -> py_trunc q = z.
Proof.
  unfold Qeq, py_trunc, inject_Z. cbn. intros H.
  rewrite Z.mul_1_r in H. rewrite <- H. apply Z.quot_mul. lia.
Qed.

(** *** The loop keeps the new hips fresh *)

Lemma iteration_fresh base templates tpl0 st :
  fresh_state base st -> fresh_state base (iteration templates tpl0 st).
Proof.
  intros (Hsub & Hcurr & Hall & Hsorted). unfold iteration.
  destruct (decide (curr_candidate st ∈ existing_hips st)) as [Hin|Hnot].
  - split; [exact Hsub|]. split; [cbn; lia|]. split; [|exact Hsorted].
    cbn. eapply Forall_impl; [exact Hall|].
    intros r (h & Hd & Hr & Hb). exists h. repeat split; try assumption; lia.
  - destruct (choice (length templates) (gen st)) as [i g1].
    destruct (make_new_star_from_template _ _ g1) as [new_rec g2] eqn:Hmake.
    assert (Hd : derived (curr_candidate st) new_rec).
    { pose proof (make_new_star_derived (default tpl0 (templates !! i))
                    (curr_candidate st) g1) as H.
      now rewrite Hmake in H. }
    split; [cbn; set_solver|]. split; [cbn; lia|]. cbn. split.
    + apply Forall_app. split.
      * eapply Forall_impl; [exact Hall|].
        intros r (h & Hd' & Hr & Hb). exists h. repeat split; try assumption; lia.
      * constructor; [|constructor]. exists (curr_candidate st).
        repeat split; [exact Hd|lia|lia|]. intros Hb. apply Hnot. now apply Hsub.
    + apply StronglySorted_app_2; [|exact Hsorted|repeat constructor].
      intros r r' Hr Hr'. apply list_elem_of_singleton in Hr'. subst r'.
      rewrite Forall_forall in Hall. destruct (Hall r Hr) as (h & Hd' & Hlt & _).
      exists h, (curr_candidate st). repeat split; try assumption; lia.
Qed.

Lemma loop_fresh base templates tpl0 budget num_new : forall st,
  fresh_state base st -> fresh_state base (loop budget num_new templates tpl0 st).
Proof.
  induction budget as [|budget IH]; intros st Hst; cbn [loop]; [exact Hst|].
  destruct (created st <? num_new); [|exact Hst].
  apply IH. now apply iteration_fresh.
Qed.

Lemma derived_hip_unique h h' r : derived h r -> derived h' r -> h = h'.
Proof.
  intros (? & ? & ? & H1 & _) (? & ? & ? & H2 & _). rewrite H1 in H2.
  injection H2 as H. exact H.
Qed.



Lemma synthesize_fresh num_new base g :
  Forall (fun r => exists h, derived h r /\ (START_AFTER_HIP < h)%Z /\ h ∉ base_hips base)
         (synthesize num_new base g) /\
  StronglySorted (fun r r' => exists h h', derived h r /\ derived h' r' /\ (h < h')%Z)
                 (synthesize num_new base g).
Proof.
  unfold synthesize. destruct ((existing_by_hip base).*2) as [|tpl0 rest].
  { split; constructor. }
  match goal with
  | |- context [loop ?b ?n ?t ?d ?s] =>
      destruct (loop_fresh base t d b n s) as (_ & _ & Hall & Hsorted)
  end.
  { split; [reflexivity|]. split; [cbn; lia|]. split; constructor. }
  split; [|exact Hsorted].
  eapply Forall_impl; [exact Hall|].
  intros r (h & Hd & Hr & Hb). exists h. repeat split; try assumption; lia.
Qed.


(** *** The ranges of a new record *)

Lemma Qinv_antitone (x y : Q) : 0 < x -> x <= y -> 1 / y <= 1 / x.
Proof.
  intros Hx Hxy. apply Qle_shift_div_r; [lra|].
  assert (E : 1 == 1 / x * x) by (field; lra).
  assert (H : 0 <= 1 / x * (y - x)).
  { apply Qmult_le_0_compat; [|lra]. apply Qle_shift_div_l; lra. }
  lra.
Qed.

Lemma Qinv_pos (x : Q) : 0 < x -> 0 < 1 / x.
Proof. intros Hx. apply Qlt_shift_div_l; lra. Qed.


(** A record within the ranges of the catalogue and of the tiling grid. *)
Definition in_range (r : star) : Prop :=
  exists a d v b t,
    ra r = Some a /\ dec r = Some d /\ vmag r = Some v /\ bv r = Some b /\
    temp_k r = Some t /\
    (0 <= a /\ a <= 360) /\ (-90 <= d /\ d <= 90) /\ -2 <= v /\
    (-0.5 <= b /\ b <= 2) /\ (3169 <= t /\ t <= 32460) /\
    (0 <= Grid.tx_q a < 90)%Z /\ (0 <= Grid.ty_q d <= 45)%Z.

Lemma temperature_bounds (b : Q) :
  -0.5 <= b -> b <= 2 ->
  3169 <= 4600 * (1 / (0.92 * b + 1.7) + 1 / (0.92 * b + 0.62)) /\
  4600 * (1 / (0.92 * b + 1.7) + 1 / (0.92 * b + 0.62)) <= 32460.
Proof.
  intros Hlo Hhi.
  pose proof (Qinv_antitone (0.92 * b + 1.7) 3.54) as A1.
  pose proof (Qinv_antitone (0.92 * b + 0.62) 2.46) as A2.
  pose proof (Qinv_antitone 1.24 (0.92 * b + 1.7)) as B1.
  pose proof (Qinv_antitone 0.16 (0.92 * b + 0.62)) as B2.
  assert (E1 : 1 / 3.54 == 100 # 354) by reflexivity.
  assert (E2 : 1 / 2.46 == 100 # 246) by reflexivity.
  assert (E3 : 1 / 1.24 == 100 # 124) by reflexivity.
  assert (E4 : 1 / 0.16 == 100 # 16) by reflexivity.
  rewrite E1 in A1. rewrite E2 in A2. rewrite E3 in B1. rewrite E4 in B2.
  split; [assert (H1 := A1); assert (H2 := A2)|assert (H1 := B1); assert (H2 := B2)];
    lra.
Qed.

(** X19. The temperature of lines 38-50 falls as the colour index grows:
    for colour indices from -0.5 on, the least the Synthesizer passes, the
    function returns a positive temperature, and a redder star (larger
    B-V) is never given a higher one; up to the colour index 2, the
    greatest the Synthesizer passes, the temperatures lie between 3169 K
    and 32460 K. *)
Theorem temperature_falls_with_colour (b1 b2 : Q) :
  -0.5 <= b1 -> b1 <= b2 ->
  exists t1 t2,
    ballesteros_temp_from_bv (Some b1) = Some t1 /\
    ballesteros_temp_from_bv (Some b2) = Some t2 /\
    0 < t2 /\ t2 <= t1 /\
    (b2 <= 2 -> 3169 <= t2 /\ t1 <= 32460).
Proof.
  intros Hlo Hle.
  assert (Hd2 : 0 < 0.92 * b1 + 0.62) by lra.
  assert (Hd1 : 0 < 0.92 * b1 + 1.7) by lra.
  unfold ballesteros_temp_from_bv.
  assert (N : forall b, b1 <= b ->
            Qeq_bool (0.92 * b + 1.7) 0 || Qeq_bool (0.92 * b + 0.62) 0 = false).
  { intros b Hb. apply orb_false_iff.
    split; apply not_true_is_false; rewrite Qeq_bool_iff; lra. }
  rewrite (N b1), (N b2) by lra.
  eexists _, _. split; [reflexivity|]. split; [reflexivity|].
  pose proof (Qinv_antitone (0.92 * b1 + 1.7) (0.92 * b2 + 1.7)) as A1.
  pose proof (Qinv_antitone (0.92 * b1 + 0.62) (0.92 * b2 + 0.62)) as A2.
  pose proof (Qinv_pos (0.92 * b2 + 1.7)) as P1.
  pose proof (Qinv_pos (0.92 * b2 + 0.62)) as P2.
  split; [|split; [lra|]].
  - assert (0 < 1 / (0.92 * b2 + 1.7)) by (apply P1; lra).
    assert (0 < 1 / (0.92 * b2 + 0.62)) by (apply P2; lra).
    lra.
  - intros Hhi.
    destruct (temperature_bounds b1) as [_ H1]; [lra..|].
    destruct (temperature_bounds b2) as [H2 _]; [lra..|].
    now split.
Qed.

Lemma temperature_falls_with_colour_witness :
  exists t1 t2,
    ballesteros_temp_from_bv (Some (-0.5)) = Some t1 /\
    ballesteros_temp_from_bv (Some 2) = Some t2 /\
    0 < t2 /\ t2 <= t1 /\
    (2 <= 2 -> 3169 <= t2 /\ t1 <= 32460).
Proof. apply temperature_falls_with_colour; vm_compute; congruence. Defined.

Lemma make_new_star_in_range template new_hip g :
  (forall a b g', a < b -> a <= (uniform a b g').1 /\ (uniform a b g').1 <= b) ->
  in_range (make_new_star_from_template template new_hip g).1.
Proof.
  intros Hu. unfold make_new_star_from_template, in_range.
  destruct (match ra template with Some _ => _ | None => _ end) as [ra' g1] eqn:Hra.
  destruct (match dec template with Some _ => _ | None => _ end) as [dec' g2] eqn:Hdec.
  destruct (match dist_pc template with Some _ => _ | None => _ end) as [dist' g3].
  destruct (match vmag template with Some _ => _ | None => _ end) as [vmag' g4] eqn:Hv.
  destruct (match bv template with Some _ => _ | None => _ end) as [bv0 g5].
  cbn [fst ra dec vmag bv temp_k].
  pose proof (py_clamp_range (-0.5) 2 bv0) as Hb.
  assert (Hbr : -0.5 <= py_max (-0.5) (py_min 2 bv0) /\ py_max (-0.5) (py_min 2 bv0) <= 2)
    by (apply Hb; lra).
  set (b' := py_max (-0.5) (py_min 2 bv0)) in *.
  exists ra', dec', vmag', b', (4600 * (1 / (0.92 * b' + 1.7) + 1 / (0.92 * b' + 0.62))).
  assert (Hra' : 0 <= ra' /\ ra' <= 360).
  { destruct (ra template) as [tem|].
    - destruct (normal 0 5 g) as [n g']. injection Hra as <- _.
      destruct (py_mod_range (tem + n) 360) as [H1 H2]; [lra|]. split; lra.
    - pose proof (Hu 0 360 g) as H. rewrite Hra in H. apply H. lra. }
  assert (Hdec' : -90 <= dec' /\ dec' <= 90).
  { destruct (dec template) as [tem|].
    - destruct (normal 0 3 g1) as [n g']. injection Hdec as <- _.
      apply py_clamp_range. lra.
    - pose proof (Hu (-80) 80 g1) as H. rewrite Hdec in H. cbn in H.
      assert (-80 < 80) by lra. destruct (H ltac:(assumption)). split; lra. }
  assert (Hv' : -2 <= vmag').
  { destruct (vmag template) as [tem|]; destruct (normal _ _ g3) as [n g'];
      injection Hv as <- _; apply py_max_lb_l. }
  split; [reflexivity|]. split; [reflexivity|]. split; [reflexivity|].
  split; [reflexivity|].
  split; [apply ballesteros_in_range; tauto|].
  split; [exact Hra'|]. split; [exact Hdec'|]. split; [exact Hv'|].
  split; [exact Hbr|].
  split; [apply temperature_bounds; tauto|].
  split; [apply Grid.tx_q_bounds|apply Grid.ty_q_bounds; tauto].
Qed.

Lemma iteration_records (P : star -> Prop) templates tpl0 st :
  (forall tpl h g, P (make_new_star_from_template tpl h g).1) ->
  Forall P (new_records st) -> Forall P (new_records (iteration templates tpl0 st)).
Proof.
  intros Hmake Hall. unfold iteration.
  destruct (decide (curr_candidate st ∈ existing_hips st)); [exact Hall|].
  destruct (choice (length templates) (gen st)) as [i g1].
  destruct (make_new_star_from_template _ _ g1) as [new_rec g2] eqn:Hm. cbn.
  apply Forall_app. split; [exact Hall|]. constructor; [|constructor].
  specialize (Hmake (default tpl0 (templates !! i)) (curr_candidate st) g1).
  now rewrite Hm in Hmake.
Qed.

Lemma loop_records (P : star -> Prop) templates tpl0 budget num_new : forall st,
  (forall tpl h g, P (make_new_star_from_template tpl h g).1) ->
  Forall P (new_records st) ->
  Forall P (new_records (loop budget num_new templates tpl0 st)).
Proof.
  induction budget as [|budget IH]; intros st Hmake Hall; cbn [loop]; [exact Hall|].
  destruct (created st <? num_new); [|exact Hall].
  apply IH; [exact Hmake|]. now apply iteration_records.
Qed.

(** X20. With a generator whose uniform draws lie between the bounds asked
    for, every synthesized record is a plausible star that the Tiler can
    place: right ascension from 0 to 360 (360 itself is not excluded: the
    remainder of line 69 is below 360 only before it is rounded),
    declination in [-90, 90], magnitude at least -2, colour index in
    [-0.5, 2], temperature between 3169 K and 32460 K, and tile indices
    inside the grid ([tx] below 90, [ty] at most 45). *)
Theorem synthesized_records_are_in_range (num_new : nat) (base : list star) (g : rng) :
  (forall a b g', a < b -> a <= (uniform a b g').1 /\ (uniform a b g').1 <= b) ->
  Forall (fun r =>
    exists a d v b t,
      ra r = Some a /\ dec r = Some d /\ vmag r = Some v /\ bv r = Some b /\
      temp_k r = Some t /\
      (0 <= a /\ a <= 360) /\ (-90 <= d /\ d <= 90) /\ -2 <= v /\
      (-0.5 <= b /\ b <= 2) /\ (3169 <= t /\ t <= 32460) /\
      (exists tx ty,
         Grid.tile_tx (Fin a) = Ok tx /\ Grid.tile_ty (Fin d) = Ok ty /\
         (0 <= tx < 90)%Z /\ (0 <= ty <= 45)%Z))
    (synthesize num_new base g).
Proof.
  intros Hu.
  assert (H : Forall in_range (synthesize num_new base g)).
  { unfold synthesize. destruct ((existing_by_hip base).*2) as [|tpl0 rest];
      [constructor|].
    apply loop_records; [|constructor].
    intros tpl h g'. now apply make_new_star_in_range. }
  eapply Forall_impl; [exact H|].
  intros r (a & d & v & b & t & Ha & Hd & Hv & Hb & Ht & Hra & Hdec & Hvm & Hbv & Htemp & Htx & Hty).
  exists a, d, v, b, t. repeat (split; [assumption|]).
  exists (Grid.tx_q a), (Grid.ty_q d). now repeat split.
Qed.

(** *** How many records the loop creates *)

(** The hips of the input among the candidates from [lo] up to, not
    including, [hi]. *)
Definition taken (base : list star) (lo hi : Z) : gset Z :=
  filter (fun h => (lo <= h < hi)%Z) (base_hips base).

(** The hips of the input the loop can meet: those among its first
    [num_new * 5] candidates. *)
Definition colliding (num_new : nat) (base : list star) : gset Z :=
  taken base (START_AFTER_HIP + 1) (START_AFTER_HIP + 1 + Z.of_nat (num_new * 5)).

Lemma taken_succ_in base lo hi :
  hi ∈ base_hips base -> (lo <= hi)%Z ->
  size (taken base lo (hi + 1)) = S (size (taken base lo hi)).
Proof.
  intros Hin Hlo.
  assert (E : taken base lo (hi + 1) = {[hi]} ∪ taken base lo hi).
  { apply set_eq. intros x. unfold taken.
    rewrite elem_of_union, !elem_of_filter, elem_of_singleton. split.
    - intros [Hr Hx]. destruct (decide (x = hi)); [now left|right]. split; [lia|exact Hx].
    - intros [->|[Hr Hx]]; (split; [lia|assumption]). }
  rewrite E, size_union, size_singleton; [reflexivity|].
  intros x Hx Hx'. apply elem_of_singleton in Hx. subst x.
  unfold taken in Hx'. apply elem_of_filter in Hx'. lia.
Qed.

Lemma taken_succ_notin base lo hi :
  hi ∉ base_hips base -> taken base lo (hi + 1) = taken base lo hi.
Proof.
  intros Hnot. apply set_eq. intros x. unfold taken. rewrite !elem_of_filter. split.
  - intros [Hr Hx]. split; [|exact Hx].
    destruct (decide (x = hi)) as [->|]; [contradiction|lia].
  - intros [Hr Hx]. split; [lia|exact Hx].
Qed.

Lemma taken_succ_le base lo hi :
  (size (taken base lo (hi + 1)) <= S (size (taken base lo hi)))%nat.
Proof.
  transitivity (size (({[hi]} : gset Z) ∪ taken base lo hi)).
  - apply subseteq_size. intros x. unfold taken.
    rewrite elem_of_union, !elem_of_filter, elem_of_singleton.
    intros [Hr Hx]. destruct (decide (x = hi)); [now left|right]. split; [lia|exact Hx].
  - rewrite size_union_alt, size_singleton.
    apply le_n_S, subseteq_size. set_solver.
Qed.

Lemma taken_grows_slowly base lo hi (k : nat) :
  (size (taken base lo (hi + Z.of_nat k)) <= size (taken base lo hi) + k)%nat.
Proof.
  induction k as [|k IH].
  - replace (hi + Z.of_nat 0)%Z with hi by lia. lia.
  - replace (hi + Z.of_nat (S k))%Z with (hi + Z.of_nat k + 1)%Z by lia.
    pose proof (taken_succ_le base lo (hi + Z.of_nat k)). lia.
Qed.

Lemma taken_empty base lo : taken base lo lo = ∅.
Proof.
  apply set_eq. intros x. unfold taken. rewrite elem_of_filter.
  split; [lia|set_solver].
Qed.

Lemma colliding_bound num_new base : (size (colliding num_new base) <= num_new * 5)%nat.
Proof.
  unfold colliding.
  pose proof (taken_grows_slowly base (START_AFTER_HIP + 1) (START_AFTER_HIP + 1)
                (num_new * 5)) as H.
  rewrite taken_empty, size_empty in H. exact H.
Qed.

(** The invariant of the loop that counts: the candidates passed over so
    far are the records created and the hips of the input met. *)
Definition counted (base : list star) (st : loop_state) : Prop :=
  base_hips base ⊆ existing_hips st /\
  (forall h, h ∈ existing_hips st -> h ∈ base_hips base \/ (h < curr_candidate st)%Z) /\
  (START_AFTER_HIP < curr_candidate st)%Z /\
  created st = length (new_records st) /\
  Z.to_nat (curr_candidate st - (START_AFTER_HIP + 1))
  = (created st + size (taken base (START_AFTER_HIP + 1) (curr_candidate st)))%nat.

Lemma iteration_counted base templates tpl0 st :
  counted base st ->
  counted base (iteration templates tpl0 st) /\
  (created (iteration templates tpl0 st) <= S (created st))%nat /\
  curr_candidate (iteration templates tpl0 st) = (curr_candidate st + 1)%Z.
Proof.
  intros (Hsub & Hex & Hcurr & Hlen & Hcount). unfold iteration.
  destruct (decide (curr_candidate st ∈ existing_hips st)) as [Hin|Hnot].
  - unfold counted. cbn [created curr_candidate existing_hips new_records].
    split; [|split; [lia|reflexivity]].
    assert (Hbase : curr_candidate st ∈ base_hips base).
    { destruct (Hex _ Hin) as [H|H]; [exact H|lia]. }
    split; [exact Hsub|]. split.
    { intros h Hh. destruct (Hex h Hh) as [H|H]; [now left|right; lia]. }
    split; [lia|]. split; [exact Hlen|].
    rewrite taken_succ_in by (assumption || lia). lia.
  - destruct (choice (length templates) (gen st)) as [i g1].
    destruct (make_new_star_from_template _ _ g1) as [new_rec g2].
    unfold counted. cbn [created curr_candidate existing_hips new_records].
    split; [|split; [lia|reflexivity]].
    split; [set_solver|]. split.
    { intros h Hh. apply elem_of_union in Hh as [Hh|Hh].
      - apply elem_of_singleton in Hh. right. lia.
      - destruct (Hex h Hh) as [H|H]; [now left|right; lia]. }
    split; [lia|]. split; [rewrite length_app; cbn; lia|].
    rewrite taken_succ_notin by (intros H; apply Hnot; now apply Hsub). lia.
Qed.

Lemma loop_counted base templates tpl0 num_new : forall budget st,
  counted base st -> (created st <= num_new)%nat ->
  counted base (loop budget num_new templates tpl0 st) /\
  (created (loop budget num_new templates tpl0 st) <= num_new)%nat /\
  (curr_candidate (loop budget num_new templates tpl0 st)
   <= curr_candidate st + Z.of_nat budget)%Z /\
  (created (loop budget num_new templates tpl0 st) = num_new \/
   curr_candidate (loop budget num_new templates tpl0 st)
   = (curr_candidate st + Z.of_nat budget)%Z).
Proof.
  induction budget as [|budget IH]; intros st Hst Hle; cbn [loop].
  { split; [exact Hst|]. split; [exact Hle|]. split; [lia|right; lia]. }
  destruct (created st <? num_new) eqn:Hlt.
  - apply Nat.ltb_lt in Hlt.
    destruct (iteration_counted base templates tpl0 st Hst) as (Hst' & Hc & Hcand).
    destruct (IH (iteration templates tpl0 st) Hst' ltac:(lia)) as (H1 & H2 & H3 & H4).
    split; [exact H1|]. split; [exact H2|]. rewrite Hcand in H3, H4.
    split; [lia|]. destruct H4 as [H4|H4]; [now left|right; lia].
  - apply Nat.ltb_ge in Hlt.
    split; [exact Hst|]. split; [exact Hle|]. split; [lia|left; lia].
Qed.

Lemma by_hip_set_not_nil h r d : by_hip_set h r d <> [].
Proof. destruct d as [|[h' r'] rest]; cbn; [discriminate|]. now destruct (h' =? h)%Z. Qed.

Lemma templates_nil_iff base :
  (existing_by_hip base).*2 = [] <-> Forall (fun s => hip s = None) base.
Proof.
  unfold existing_by_hip.
  set (f := fun (d : list (Z * star)) r =>
              match hip r with None => d | Some q => by_hip_set (py_trunc q) r d end).
  assert (G : forall l d, foldl f d l = [] <-> d = [] /\ Forall (fun s => hip s = None) l).
  { induction l as [|r l IH]; intros d; cbn [foldl].
    - split; [intros ->; split; [reflexivity|constructor]|now intros [-> _]].
    - rewrite IH. unfold f at 1. destruct (hip r) as [q|] eqn:Hq.
      + split.
        * intros [H _]. now apply by_hip_set_not_nil in H.
        * intros [_ H]. inversion H; congruence.
      + split.
        * intros [-> H]. split; [reflexivity|]. now constructor.
        * intros [-> H]. split; [reflexivity|]. now inversion H. }
  split.
  - intros H. apply fmap_nil_inv in H. now apply G in H.
  - intros H. assert (E : foldl f [] base = []) by now apply G. now rewrite E.
Qed.

(** X21. The number of records the Synthesizer creates (lines 157-186).
    The loop looks at the candidates 51, 52, ... and stops after [num_new]
    records or [5 * num_new] candidates; a candidate that is a hip of the
    input creates nothing. So: never more than [num_new] records; none when
    no input record has a hip; otherwise exactly the smaller of [num_new]
    and the number of the first [5 * num_new] candidates that are no hip of
    the input. The quota [num_new] is met exactly when at most
    [4 * num_new] hips of the input lie among these candidates. *)
Theorem synthesizer_quota (num_new : nat) (base : list star) (g : rng) :
  (length (synthesize num_new base g) <= num_new)%nat /\
  (Forall (fun s => hip s = None) base -> synthesize num_new base g = []) /\
  (Exists (fun s => hip s <> None) base ->
     length (synthesize num_new base g)
     = Nat.min num_new (num_new * 5 - size (colliding num_new base)) /\
     (length (synthesize num_new base g) = num_new <->
      (size (colliding num_new base) <= 4 * num_new)%nat)).
Proof.
  assert (Hnil : Forall (fun s => hip s = None) base -> synthesize num_new base g = []).
  { intros H. apply templates_nil_iff in H. unfold synthesize. now rewrite H. }
  assert (Hmain : (existing_by_hip base).*2 <> [] ->
            length (synthesize num_new base g)
            = Nat.min num_new (num_new * 5 - size (colliding num_new base))).
  { intros Hne. unfold synthesize.
    destruct ((existing_by_hip base).*2) as [|tpl0 rest]; [congruence|].
    match goal with
    | |- context [loop ?b ?n ?t ?d ?s] =>
        destruct (loop_counted base t d n b s) as (Hc & Hle & Hcand & Hstop);
        [| cbn; lia |set (st' := loop b n t d s) in *]
    end.
    { split; [reflexivity|]. split; [intros h Hh; now left|]. split; [cbn; lia|].
      split; [reflexivity|]. cbn [created curr_candidate].
      rewrite taken_empty, size_empty. lia. }
    cbn [curr_candidate] in Hcand, Hstop.
    destruct Hc as (_ & _ & Hcurr & Hlen & Hcount). rewrite <- Hlen.
    unfold colliding. destruct Hstop as [Hstop|Hstop].
    - pose proof (taken_grows_slowly base (START_AFTER_HIP + 1) (curr_candidate st')
                    (Z.to_nat (START_AFTER_HIP + 1 + Z.of_nat (num_new * 5)
                               - curr_candidate st'))) as Hg.
      rewrite Z2Nat.id in Hg by lia.
      replace (curr_candidate st'
               + (START_AFTER_HIP + 1 + Z.of_nat (num_new * 5) - curr_candidate st'))%Z
        with (START_AFTER_HIP + 1 + Z.of_nat (num_new * 5))%Z in Hg by lia.
      lia.
    - rewrite Hstop in Hcount.
      replace (START_AFTER_HIP + 1 + Z.of_nat (num_new * 5) - (START_AFTER_HIP + 1))%Z
        with (Z.of_nat (num_new * 5)) in Hcount by lia.
      rewrite Nat2Z.id in Hcount. lia. }
  split.
  { destruct ((existing_by_hip base).*2) as [|tpl0 rest] eqn:Ht.
    - unfold synthesize. rewrite Ht. cbn. lia.
    - rewrite Hmain by discriminate. lia. }
  split; [exact Hnil|].
  intros Hex.
  assert (Hne : (existing_by_hip base).*2 <> []).
  { intros H. apply templates_nil_iff in H. apply Exists_exists in Hex as (s & Hs & Hh).
    rewrite Forall_forall in H. now apply Hh, H. }
  rewrite (Hmain Hne). split; [reflexivity|].
  pose proof (colliding_bound num_new base). lia.
Qed.

(** *** The two files written *)

(** Lines 167-170 and 190-205: nothing is written when no input record has
    a hip; otherwise the new records go to the first file, and the input
    records followed by the new records to the second. *)
Definition outputs (num_new : nat) (base : list star) (g : rng)
  : option (list star * list star) :=
  match (existing_by_hip base).*2 with
  | [] => None
  | _ :: _ => let new := synthesize num_new base g in Some (new, base ++ new)
  end.

(** The hips of a file as line 151 reads them. *)
Definition int_hips (records : list star) : list Z :=
  omap (fun r => py_trunc <$> hip r) records.

Lemma derived_int_hip h r : derived h r -> py_trunc <$> hip r = Some h.
Proof.
  intros (? & ? & ? & Hh & _). rewrite Hh. cbn. f_equal.
  now apply py_trunc_inject_Z.
Qed.

Lemma sorted_new_hips (l : list star) :
  StronglySorted (fun r r' => exists h h', derived h r /\ derived h' r' /\ (h < h')%Z) l ->
  Forall (fun r => exists h, derived h r) l ->
  NoDup (int_hips l).
Proof.
  induction 1 as [|a l Hs IH Hall]; intros Hd; [constructor|].
  inversion Hd as [|? ? [h Ha] Hd']; subst.
  unfold int_hips. cbn [omap list_omap]. fold (int_hips l).
  rewrite (derived_int_hip h a Ha). constructor; [|now apply IH].
  unfold int_hips. rewrite list_elem_of_omap. intros (r & Hr & Hh).
  rewrite Forall_forall in Hall. destruct (Hall r Hr) as (h1 & h2 & H1 & H2 & Hlt).
  rewrite (derived_int_hip h2 r H2) in Hh. injection Hh as ->.
  pose proof (derived_hip_unique _ _ _ Ha H1). lia.
Qed.

(** X22. The augmented catalogue (lines 197-205). When the run writes its
    files, the second file is the input, record by record and in order,
    followed by the first file; a hip occurs in it at most once if that is
    so in the input; and its hips are those of the input and those of the
    new records. No file is written exactly when no input record has a
    hip. *)
Theorem augmented_catalogue_keeps_hips_unique (num_new : nat) (base : list star) (g : rng) :
  (outputs num_new base g = None <-> Forall (fun s => hip s = None) base) /\
  (forall new aug, outputs num_new base g = Some (new, aug) ->
     new = synthesize num_new base g /\
     aug = base ++ new /\
     length aug = (length base + length new)%nat /\
     int_hips aug = int_hips base ++ int_hips new /\
     length (int_hips new) = length new /\
     (NoDup (int_hips base) -> NoDup (int_hips aug))).
Proof.
  split.
  { rewrite <- templates_nil_iff. unfold outputs.
    destruct ((existing_by_hip base).*2); split; congruence. }
  intros new aug Hout. unfold outputs in Hout.
  destruct ((existing_by_hip base).*2) as [|tpl0 rest]; [discriminate|].
  cbn zeta in Hout. injection Hout as <- <-.
  destruct (synthesize_fresh num_new base g) as [Hall Hsorted].
  set (new := synthesize num_new base g) in *.
  split; [reflexivity|]. split; [reflexivity|]. split; [apply length_app|].
  assert (Happ : int_hips (base ++ new) = int_hips base ++ int_hips new).
  { unfold int_hips. apply omap_app. }
  split; [exact Happ|]. split.
  { clearbody new. clear Hsorted Happ. induction Hall as [|r l (h & Hd & _) _ IH]; [reflexivity|].
    unfold int_hips. cbn [omap list_omap]. rewrite (derived_int_hip h r Hd).
    cbn. f_equal. exact IH. }
  intros Hnd. rewrite Happ. apply NoDup_app. split; [exact Hnd|]. split.
  - intros h Hb Hn. unfold int_hips in Hn. apply list_elem_of_omap in Hn as (r & Hr & Hh).
    rewrite Forall_forall in Hall. destruct (Hall r Hr) as (h' & Hd & _ & Hfresh).
    rewrite (derived_int_hip h' r Hd) in Hh. injection Hh as ->.
    apply Hfresh. unfold base_hips. now apply elem_of_list_to_set.
  - apply sorted_new_hips; [exact Hsorted|].
    eapply Forall_impl; [exact Hall|]. intros r (h & Hd & _). now exists h.
Qed.

End Synthesize.

(** *** Reading the catalogue, lines 22-35 *)

Section Loading.

Variable json_loads : PyText.text -> option Json.json.
Variable float_of_str : string -> option pyfloat.

(** [load_ndjson] on a path that does not exist ([None]) or on the lines of
    the file: a line that does not parse is passed over with a warning. *)
Definition load_ndjson (file : option (list PyText.text)) : list Json.json :=
  match file with
  | None => []
  | Some lines =>
      omap json_loads (filter (fun ln => ln <> []) (PyText.strip <$> lines))
  end.

Lemma stripped_lines (lines : list PyText.text) :
  filter (fun ln => ln <> []) (PyText.strip <$> lines) = Tiler.read_lines lines.
Proof.
  unfold Tiler.read_lines. induction lines as [|ln rest IH]; [reflexivity|].
  cbn [fmap list_fmap]. destruct (decide (PyText.strip ln = [])) as [E|E].
  - rewrite !filter_cons_False by (intros H; now apply H). exact IH.
  - rewrite !filter_cons_True by exact E. cbn [fmap list_fmap]. f_equal. exact IH.
Qed.

Lemma omap_length_le {A B : Type} (f : A -> option B) (l : list A) :
  (length (omap f l) <= length l)%nat.
Proof.
  induction l as [|x l IH]; [reflexivity|]. cbn [omap list_omap].
  destruct (f x); cbn; lia.
Qed.

Lemma placed_among_loaded (lines : list PyText.text) :
  sublist (Tiler.valid_records json_loads float_of_str lines) (omap json_loads lines).
Proof.
  unfold Tiler.valid_records, Tiler.placed.
  induction lines as [|ln rest IH]; [constructor|].
  cbn [omap list_omap].
  destruct (Tiler.place json_loads float_of_str ln) as [[[key obj]|]|e] eqn:Hp.
  - pose proof (Tiler.place_ok_usable _ _ _ _ Hp) as Hu. cbn in Hu.
    destruct (Tiler.usable _ _ ln); [|discriminate].
    rewrite <- Hu. cbn. now constructor.
  - destruct (json_loads ln); [apply sublist_cons|]; exact IH.
  - destruct (json_loads ln); [apply sublist_cons|]; exact IH.
Qed.

(** X24. The Synthesizer reads its catalogue as the Tiler reads its input:
    [load_ndjson] returns, in the order of the file, the parsed form of
    every line that is not blank and parses, stripped first of the
    whitespace [str.strip] removes, and passes over the others without
    stopping, so it returns at most one value per line; and every record
    the Tiler places from the same lines is among the values loaded, in the
    same order. A path that does not exist gives the empty catalogue. *)
Theorem loaded_catalogue_covers_the_tiles (lines : list PyText.text) :
  load_ndjson None = [] /\
  load_ndjson (Some lines) = omap json_loads (Tiler.read_lines lines) /\
  (forall v, v ∈ load_ndjson (Some lines) <->
             exists ln, ln ∈ lines /\ PyText.strip ln <> [] /\
                        json_loads (PyText.strip ln) = Some v) /\
  (length (load_ndjson (Some lines)) <= length lines)%nat /\
  sublist (Tiler.valid_records json_loads float_of_str (Tiler.read_lines lines))
          (load_ndjson (Some lines)).
Proof.
  assert (E : load_ndjson (Some lines) = omap json_loads (Tiler.read_lines lines)).
  { unfold load_ndjson. now rewrite stripped_lines. }
  split; [reflexivity|]. split; [exact E|]. rewrite E. split; [|split].
  - intros v. rewrite list_elem_of_omap. unfold Tiler.read_lines. split.
    + intros (s & Hs & Hv). apply list_elem_of_fmap in Hs as (ln & -> & Hln).
      apply list_elem_of_filter in Hln as [Hne Hln]. now exists ln.
    + intros (ln & Hln & Hne & Hv). exists (PyText.strip ln). split; [|exact Hv].
      apply list_elem_of_fmap. exists ln. split; [reflexivity|].
      now apply list_elem_of_filter.
  - etransitivity; [apply omap_length_le|]. unfold Tiler.read_lines.
    rewrite length_fmap. apply length_filter.
  - apply placed_among_loaded.
Qed.

End Loading.
End Synthesizer.

(** ** The arithmetic of the script on one line *)

(** The embedding computes with exact rationals. Where a statement depends
    on the rounding of binary64 it is not made of the exact model; this
    module holds line 86 of [scripts/make_10k_after_hip50.py] as the script
    computes it. *)
Module Binary64.
Import PrimFloat.
Local Open Scope float_scope.



(** The distance a parallax stands for. *)
Definition dist_of_plx (plx : float) : float := 1000 / plx.


End Binary64.

(** ** The scripts on small inputs *)

Module Demo.
Import PyNum PyStr Json.
Local Open Scope Q_scope.

(** Six records and the lines that hold them. The lines are named after
    their content; [loads] stands for [json.loads] on them and rejects every
    other line. *)
Definition star1 : json :=
  JObj [("hip", JInt 1); ("ra", JFloat (Fin 361)); ("dec", JFloat (Fin 95))].
Definition star2 : json :=
  JObj [("hip", JInt 2); ("ra", JFloat (Fin (-10))); ("dec", JFloat (Fin (-90)))].
Definition star3 : json :=
  JObj [("hip", JInt 3); ("ra", JFloat (Fin 350.5)); ("dec", JInt (-89))].
Definition no_dec : json := JObj [("hip", JInt 4); ("ra", JInt 10)].
Definition text_ra : json := JObj [("ra", JStr "ten"); ("dec", JInt 0)].
Definition nan_ra : json := JObj [("ra", JFloat NaN); ("dec", JInt 0)].

Definition loads (ln : string) : option json :=
  if String.eqb ln "star1" then Some star1
  else if String.eqb ln "star2" then Some star2
  else if String.eqb ln "star3" then Some star3
  else if String.eqb ln "no_dec" then Some no_dec
  else if String.eqb ln "text_ra" then Some text_ra
  else if String.eqb ln "nan_ra" then Some nan_ra
  else if String.eqb ln "array" then Some (JArr [JInt 1; JInt 2])
  else None.

(** [float] and [int] of the few strings of the examples. *)
Definition float_of_str (s : string) : option pyfloat :=
  if String.eqb s "nan" then Some NaN
  else if String.eqb s "7.5" then Some (Fin 7.5)
  else None.

Definition int_of_str (s : string) : option Z :=
  if String.eqb s "1" then Some 1%Z
  else if String.eqb s "2" then Some 2%Z
  else if String.eqb s "3" then Some 3%Z
  else None.

(** A printer that shows the hip and the name of a record. *)
Definition dumps (v : json) : string :=
  match v with
  | JObj fields =>
      (match assoc "hip" fields with
       | Some (JInt z) => pretty z
       | _ => "?"
       end)
      +:+ ":"
      +:+ (match assoc "name" fields with
           | Some (JStr s) => s
           | _ => "null"
           end)
  | _ => "?"
  end.

(** *** The Tiler *)

Definition lines : list string :=
  ["star2"; "garbled"; "star1"; "no_dec"; "star3"; "text_ra"].

Example tiles_of_lines :
  exists tiles,
    Tiler.build_tiles loads float_of_str lines = Ok tiles /\
    tiles = {[ "87_0" := [star2; star3]; "0_46" := [star1] ]}.
Proof. eexists. split; [vm_compute; reflexivity|]. vm_compute. reflexivity. Qed.

(** C7, the bad line that is not passed over: a line that holds the valid
    JSON text of an array has no [get], so line 22 raises [AttributeError]
    and the run stops, although the lines around it are good. *)
Lemma non_object_line_stops_tiler :
  loads "array" = Some (JArr [JInt 1; JInt 2]) /\
  Tiler.build_tiles loads float_of_str ["star2"; "array"; "star3"] = Raise AttributeError.
Proof. split; reflexivity. Qed.

(** So does a coordinate that is NaN, at [math.floor]. *)

Example nan_coordinate_stops_tiler :
  Tiler.build_tiles loads float_of_str ["star2"; "nan_ra"] = Raise ValueError.
Proof. reflexivity. Qed.

Lemma tiling_is_partition_witness :
  is_ok (Tiler.build_tiles loads float_of_str lines) = true /\
  forall tiles,
    Tiler.build_tiles loads float_of_str lines = Ok tiles ->
    Tiler.tile_content tiles "87_0" = [star2; star3] /\
    Tiler.tile_content tiles "0_46" = [star1] /\
    Tiler.all_records tiles ≡ₚ [star2; star1; star3].
Proof.
  destruct (Tiler.tiling_is_partition loads float_of_str lines) as [Hrun Hpart].
  split.
  - apply Hrun. repeat constructor.
  - intros tiles Ht.
    destruct (Hpart tiles Ht) as (_ & _ & Hcontent & _ & _ & _ & _ & Hperm & _).
    rewrite !Hcontent. split; [reflexivity|]. split; [reflexivity|exact Hperm].
Defined.

Lemma bad_lines_are_skipped_witness :
  Tiler.build_tiles loads float_of_str lines
  = Tiler.build_tiles loads float_of_str ["star2"; "star1"; "star3"].
Proof.
  exact (proj1 (proj2 (Tiler.bad_lines_are_skipped loads float_of_str lines))).
Defined.

(** *** The files of a tile *)

(** A codec that stands for gzip: it stores the content behind a two-letter
    header. *)
Definition toy_compress (b : string) : string := "GZ" +:+ b.
Definition toy_decompress (b : string) : option string :=
  if startswith "GZ" b then Some (drop_chars 2 b) else None.

(** A printer that emits no newline: the brackets of the value. *)
Definition shape (v : json) : string :=
  match v with
  | JObj _ => "{}"
  | JArr _ => "[]"
  | _ => "0"
  end.

Lemma gzip_tile_round_trip_witness :
  exists plain gz,
    (Writer.write_tiles Writer.Posix shape id toy_compress
       {[ "87_0" := [star2; star3] ]} ∅).1
      !! Writer.path_plain Writer.Posix "87_0" = Some plain /\
    (Writer.write_tiles Writer.Posix shape id toy_compress
       {[ "87_0" := [star2; star3] ]} ∅).1
      !! Writer.path_gz Writer.Posix "87_0" = Some gz /\
    plain = "{}" +:+ Writer.newline +:+ "{}" +:+ Writer.newline /\
    toy_decompress gz = Some plain.
Proof.
  destruct (Writer.gzip_tile_round_trip Writer.Posix shape id toy_compress toy_decompress
              {[ "87_0" := [star2; star3] ]} ∅ "87_0" [star2; star3])
    as (plain & gz & Hp & Hg & Hplain & _ & Hsame).
  - intros b. reflexivity.
  - intros x. now destruct x.
  - reflexivity.
  - discriminate.
  - exists plain, gz. split; [exact Hp|]. split; [exact Hg|].
    split; [exact Hplain|]. now apply Hsame.
Defined.

(** C4, where the two files differ: on Windows the plain file, written in
    text mode, ends its lines with CR LF, and the gzip file, written in
    binary mode, holds bare newlines. *)
Lemma crlf_plain_file_differs_from_gzip :
  (Writer.write_tiles Writer.Windows shape id toy_compress
     {[ "87_0" := [star2; star3] ]} ∅).1
    !! Writer.path_plain Writer.Windows "87_0"
  = Some ("{}" +:+ Writer.crlf +:+ "{}" +:+ Writer.crlf) /\
  toy_decompress
    <$> (Writer.write_tiles Writer.Windows shape id toy_compress
           {[ "87_0" := [star2; star3] ]} ∅).1
          !! Writer.path_gz Writer.Windows "87_0"
  = Some (Some ("{}" +:+ Writer.newline +:+ "{}" +:+ Writer.newline)) /\
  "{}" +:+ Writer.crlf +:+ "{}" +:+ Writer.crlf
  <> "{}" +:+ Writer.newline +:+ "{}" +:+ Writer.newline.
Proof. repeat split; try (vm_compute; reflexivity). discriminate. Qed.

Example files_of_a_tile :
  (Writer.write_tiles Writer.Posix dumps id toy_compress
     {[ "87_0" := [star2; star3] ]} ∅).1
  = {[ "data/tiles/87_0.ndjson" := "2:null" +:+ Writer.newline +:+ "3:null" +:+ Writer.newline;
       "data/tiles/87_0.ndjson.gz" := "GZ2:null" +:+ Writer.newline +:+ "3:null" +:+ Writer.newline ]}.
Proof. vm_compute. reflexivity. Qed.

Example path_of_a_tile_on_windows :
  Writer.path_plain Writer.Windows "87_0" = "data/tiles" +:+ String "092" "87_0.ndjson".
Proof. reflexivity. Qed.

(** *** The Enricher *)

Definition w0 : Enricher.world :=
  {| Enricher.calls := 0; Enricher.slept := []; Enricher.cache_file := None |}.

(** A service that fails on every request, and one that knows star 2. *)
Definition down (n : nat) (qnames : list string) : Enricher.reply :=
  Enricher.Failure (ServiceError "unreachable").

Definition knows_star2 (n : nat) (qnames : list string) : Enricher.reply :=
  if bool_decide ("HIP 2" ∈ qnames)
  then Enricher.Table [ {| Enricher.MAIN_ID := Some "* alf CMa";
                           Enricher.IDS := Some "HD 48915|HIP 2|* alf CMa" |} ]
  else Enricher.NoMatch.




Example names_from_the_service :
  (Enricher.main loads dumps int_of_str knows_star2 2 Enricher.DELAY_S ∅
     ["star1"; "star2"; "star3"] w0).1
  = Ok ["1:null"; "2:* alf CMa"; "3:null"].
Proof. vm_compute. reflexivity. Qed.

(** A cached canonical name that is the empty text is not null, yet the
    name written is the alias. *)
Definition empty_main_id : Enricher.cache_entry :=
  {| Enricher.main_id := Some ""; Enricher.ids := ["HIP 7"; "HD 1"] |}.

Lemma empty_main_id_is_passed_over :
  Enricher.main_id empty_main_id = Some "" /\
  Enricher.enrich_record int_of_str {[ "HIP:7" := empty_main_id ]}
    (JObj [("hip", JInt 7)])
  = Ok (JObj [("hip", JInt 7); ("name", JStr "HD 1")]).
Proof. split; reflexivity. Qed.

Definition sirius : Enricher.cache_entry :=
  {| Enricher.main_id := Some "* alf CMa"; Enricher.ids := ["HIP 7"; "HD 1"] |}.

Lemma enriched_name_from_cache_witness :
  exists name : option string,
    Enricher.enrich_record int_of_str {[ "HIP:7" := sirius ]} (JObj [("hip", JInt 7)])
    = Ok (JObj (dict_set "name" (Enricher.name_value name) [("hip", JInt 7)])) /\
    name = Some "* alf CMa".
Proof.
  assert (Hcached : ({[ "HIP:7" := sirius ]} : gmap string Enricher.cache_entry)
                    !! Enricher.cache_key 7 = Some sirius)
    by (vm_compute; reflexivity).
  destruct (Enricher.enriched_name_from_cache int_of_str {[ "HIP:7" := sirius ]}
              [("hip", JInt 7)] 7 sirius eq_refl Hcached)
    as (name & Hrec & Hmain & _).
  exists name. split; [exact Hrec|]. apply Hmain; [reflexivity|discriminate].
Defined.


(** *** The Tiler from the file to the tiles *)

(** The lines of a file as the script meets them, with their line ends and
    with whitespace of several kinds around the text; [loads_text] stands
    for [json.loads] on what is left of them. *)
Fixpoint to_string (t : PyText.text) : string :=
  match t with
  | c :: rest => String (ascii_of_N c) (to_string rest)
  | [] => ""
  end.

Definition loads_text (t : PyText.text) : option json := loads (to_string t).

Definition raw_lines : list PyText.text :=
  [ 160%N :: PyText.of_string "star2" ++ [10%N];
    PyText.of_string "garbled" ++ [10%N];
    [8232%N; 10%N];
    PyText.of_string "  star1" ++ [12288%N; 13%N; 10%N];
    PyText.of_string "star3" ].

Example lines_read :
  Tiler.read_lines raw_lines = PyText.of_string <$> ["star2"; "garbled"; "star1"; "star3"].
Proof. reflexivity. Qed.

Lemma tile_files_hold_the_records_witness :
  exists fs' : gmap string string,
    TilerRun.tiler_main Writer.Posix loads_text float_of_str shape id toy_compress
      raw_lines ∅ = Ok (fs', 2%nat) /\
    fs' !! Writer.path_plain Writer.Posix "87_0"
    = Some ("{}" +:+ Writer.newline +:+ "{}" +:+ Writer.newline) /\
    fs' !! Writer.path_gz Writer.Posix "1_1" = None.
Proof.
  set (fs' := (Writer.write_tiles Writer.Posix shape id toy_compress
                 {[ "87_0" := [star2; star3]; "0_46" := [star1] ]} ∅).1).
  assert (Hrun : TilerRun.tiler_main Writer.Posix loads_text float_of_str shape id
                   toy_compress raw_lines ∅
                 = Ok (fs', 2%nat)) by (vm_compute; reflexivity).
  exists fs'. split; [exact Hrun|].
  destruct (TilerRun.tile_files_hold_the_records Writer.Posix loads_text float_of_str
              shape id toy_compress raw_lines ∅ fs' 2%nat) as (Hkeys & Hrest & _).
  - intros x. now destruct x.
  - exact Hrun.
  - split.
    + destruct (Hkeys "87_0") as [Hp _]; [vm_compute; discriminate|].
      rewrite Hp. vm_compute. reflexivity.
    + apply (Hrest "1_1"). vm_compute. reflexivity.
Defined.

(** *** The file of the Normalizer *)

Definition braces (v : json) : string := "{}".

Definition dim_star : Normalizer.star :=
  {| Normalizer.hip := Normalizer.CNum 1; Normalizer.ra := Some 10;
     Normalizer.dec := Some 20; Normalizer.dist_pc := None; Normalizer.vmag := Some 6;
     Normalizer.plx := None; Normalizer.bv := None; Normalizer.sp_type := None;
     Normalizer.absmag := None; Normalizer.temp_k := None |}.

Lemma ndjson_file_has_no_newline_witness :
  contains_char "010" (Normalizer.write_ndjson braces [dim_star; dim_star]) = false.
Proof.
  apply (Normalizer.ndjson_file_has_no_newline braces [dim_star; dim_star]).
  intros v. reflexivity.
Defined.

(** *** The Enricher, further runs *)

(** A service that fails on its first request and knows star 2 from then
    on. *)
Definition flaky (n : nat) (qnames : list string) : Enricher.reply :=
  match n with
  | O => Enricher.Failure (ServiceError "timeout")
  | S _ => knows_star2 n qnames
  end.

Lemma helper_returns_first_answer_witness :
  (Enricher.query_simbad_for_hips int_of_str flaky [2]%Z w0).2
  = {| Enricher.calls := 2;
       Enricher.slept := [Enricher.RETRY_DELAY];
       Enricher.cache_file := None |}.
Proof.
  rewrite (Enricher.helper_returns_first_answer int_of_str flaky [2]%Z w0 1).
  - reflexivity.
  - unfold Enricher.RETRIES. lia.
  - intros i Hi. assert (i = 0%nat) as -> by lia. eexists. reflexivity.
  - intros e. vm_compute. discriminate.
Defined.

Lemma lookup_plan_witness :
  concat (Enricher.batches 2 (Enricher.needed ∅ [3; 1; 2; 3; 1]%Z))
  = Enricher.needed ∅ [3; 1; 2; 3; 1]%Z /\
  Forall (fun b => b <> [] /\ (Z.of_nat (length b) <= 2)%Z)
         (Enricher.batches 2 (Enricher.needed ∅ [3; 1; 2; 3; 1]%Z)).
Proof.
  apply (proj1 (Enricher.lookup_plan 2 ∅ [3; 1; 2; 3; 1]%Z)). reflexivity.
Defined.

Example no_batch_for_a_negative_size :
  Enricher.batches (-1) (Enricher.needed ∅ [3; 1; 2]%Z) = [] /\
  Enricher.main loads dumps int_of_str knows_star2 (-1) Enricher.DELAY_S ∅
    ["star1"; "star2"; "star3"] w0
  = (Ok ["1:null"; "2:null"; "3:null"],
     {| Enricher.calls := 0; Enricher.slept := []; Enricher.cache_file := Some ∅ |}).
Proof. split; vm_compute; reflexivity. Qed.

Lemma cached_hips_send_no_request_witness :
  (Enricher.main loads dumps int_of_str down 2 Enricher.DELAY_S
     {[ "HIP:2" := sirius ]} ["star2"] w0).2 = w0.
Proof.
  rewrite (Enricher.cached_hips_send_no_request loads dumps int_of_str down 2
             Enricher.DELAY_S {[ "HIP:2" := sirius ]} ["star2"] w0 [star2] [2%Z]).
  - reflexivity.
  - reflexivity.
  - intros h Hh. apply list_elem_of_singleton in Hh. subst h.
    exists sirius. vm_compute. reflexivity.
Defined.


Lemma chosen_name_is_no_hip_alias_witness :
  "HD 1" <> "" /\
  (Enricher.main_id empty_main_id = Some "HD 1" \/
   (Enricher.main_id empty_main_id = None \/ Enricher.main_id empty_main_id = Some "") /\
   "HD 1" ∈ Enricher.ids empty_main_id /\ Enricher.looks_like_hip "HD 1" = false).
Proof.
  apply (Enricher.chosen_name_is_no_hip_alias empty_main_id "HD 1"). reflexivity.
Defined.

Lemma enriching_twice_changes_nothing_witness :
  Enricher.enrich_records int_of_str {[ "HIP:7" := sirius ]}
    [JObj [("hip", JInt 7); ("name", JStr "* alf CMa")]]
  = Ok [JObj [("hip", JInt 7); ("name", JStr "* alf CMa")]].
Proof.
  apply (Enricher.enriching_twice_changes_nothing int_of_str {[ "HIP:7" := sirius ]}
           [JObj [("hip", JInt 7)]]).
  vm_compute. reflexivity.
Defined.

Lemma enricher_stops_at_unreadable_line_witness :
  Enricher.main loads dumps int_of_str knows_star2 2 Enricher.DELAY_S ∅
    (["star2"] ++ "garbled" :: ["star3"]) w0
  = (Raise JSONDecodeError, w0).
Proof.
  apply (Enricher.enricher_stops_at_unreadable_line loads dumps int_of_str knows_star2
           2 Enricher.DELAY_S ∅ ["star2"] ["star3"] "garbled" w0).
  - repeat constructor.
  - reflexivity.
Defined.

(** *** The Synthesizer *)

(** A generator that always draws the centre: the lower bound of a uniform
    draw, the mean of a normal draw and the first element of a list; with it,
    a power of ten that is 1 and a logarithm that is 0. *)
Definition centre_uniform (a b : Q) (g : nat) : Q * nat := (a, S g).
Definition centre_normal (mu sigma : Q) (g : nat) : Q * nat := (mu, S g).
Definition first_choice (n : nat) (g : nat) : nat * nat := (0%nat, S g).
Definition pow10_at_0 (x : Q) : Q := 1.
Definition log10_at_1 (x : Q) : Q := 0.

Definition blank : Synthesizer.star :=
  {| Synthesizer.hip := None; Synthesizer.ra := None; Synthesizer.dec := None;
     Synthesizer.dist_pc := None; Synthesizer.vmag := None; Synthesizer.plx := None;
     Synthesizer.bv := None; Synthesizer.absmag := None; Synthesizer.temp_k := None |}.

Definition with_hip (q : Q) : Synthesizer.star :=
  {| Synthesizer.hip := Some q; Synthesizer.ra := Some 10; Synthesizer.dec := Some 20;
     Synthesizer.dist_pc := Some 100; Synthesizer.vmag := Some 6;
     Synthesizer.plx := Some 10; Synthesizer.bv := Some 1;
     Synthesizer.absmag := Some 1; Synthesizer.temp_k := None |}.

Definition base : list Synthesizer.star := [with_hip 51; blank; with_hip 53; with_hip 7].

Example synthesized_hips :
  Synthesizer.hip <$>
    Synthesizer.synthesize nat centre_uniform centre_normal first_choice
      pow10_at_0 log10_at_1 3 base 0%nat
  = [Some 52; Some 54; Some 55].
Proof. vm_compute. reflexivity. Qed.


(** The template a new record is made from is the one [random.choice]
    picks in the whole list of templates: with the first choice, the
    first. *)
Definition near_star : Synthesizer.star :=
  {| Synthesizer.hip := Some 51; Synthesizer.ra := Some 100; Synthesizer.dec := Some 20;
     Synthesizer.dist_pc := Some 100; Synthesizer.vmag := Some 6;
     Synthesizer.plx := Some 1000; Synthesizer.bv := Some 1;
     Synthesizer.absmag := Some 1; Synthesizer.temp_k := None |}.

Definition far_star : Synthesizer.star :=
  {| Synthesizer.hip := Some 7; Synthesizer.ra := Some 200; Synthesizer.dec := Some 20;
     Synthesizer.dist_pc := Some 400; Synthesizer.vmag := Some 6;
     Synthesizer.plx := Some 2.5; Synthesizer.bv := Some 1;
     Synthesizer.absmag := Some 1; Synthesizer.temp_k := None |}.

Example template_of_the_first_choice :
  Synthesizer.ra <$>
    Synthesizer.synthesize nat centre_uniform centre_normal first_choice
      pow10_at_0 log10_at_1 1 [near_star; far_star] 0%nat
  = [Some 100].
Proof. vm_compute. reflexivity. Qed.


Lemma synthesized_records_are_in_range_witness :
  Forall (fun r => exists a d, Synthesizer.ra r = Some a /\ Synthesizer.dec r = Some d /\
                     (0 <= a /\ a <= 360) /\ (-90 <= d /\ d <= 90))
    (Synthesizer.synthesize nat centre_uniform centre_normal first_choice
       pow10_at_0 log10_at_1 3 base 0%nat).
Proof.
  eapply Forall_impl.
  - apply (Synthesizer.synthesized_records_are_in_range nat centre_uniform centre_normal
             first_choice pow10_at_0 log10_at_1 3 base 0%nat).
    intros a b g' Hab. cbn. split; [apply Qle_refl|now apply Qlt_le_weak].
  - intros r (a & d & v & b & t & Ha & Hd & _ & _ & _ & Hra & Hdec & _).
    now exists a, d.
Defined.

End Demo.
